(** * Bangla medical transcription: the capture / recognition / translation
      pipeline of [transcription_pipeline.py] and the guards of
      [user_interface.py], as a shallow embedding.

    Python [str] values are sequences of Unicode code points, the fallback
    dictionary [bengali_medical_terms] is a finite map, the object
    [TranscriptionPipeline] is a record that every operation threads
    through, and worker threads are entries of a thread table that a
    scheduler steps one at a time. *)

From Stdlib Require Import Floats.PrimFloat Floats.SpecFloat Floats.FloatOps.
From Stdlib Require Import ZArith NArith QArith List String Ascii Bool Lia.
From Stdlib Require Strings.Byte.
From stdpp Require Import gmap list.

Local Open Scope Z_scope.

(** ** Python strings *)

Module PyStr.

(** A Python 3 [str] is a sequence of code points. *)
Abbreviation char := N (only parsing).
Abbreviation str := (list N) (only parsing).

(** Truthiness of a [str]: non-empty. *)
Definition truthy (s : str) : bool :=
  match s with [] => false | _ :: _ => true end.

(** [str.isspace] on one code point, the test [str.split()] uses. *)
Definition isspace (c : char) : bool :=
  ((9 <=? c) && (c <=? 13) || (28 <=? c) && (c <=? 32)
   || (c =? 133) || (c =? 160) || (c =? 5760)
   || (8192 <=? c) && (c <=? 8202)
   || (c =? 8232) || (c =? 8233) || (c =? 8239) || (c =? 8287)
   || (c =? 12288))%N.

(** [s.split()]: maximal runs of non-whitespace, in order; [cur] holds
    the run being read, reversed. *)
Fixpoint split_from (cur : str) (s : str) : list str :=
  match s with
  | [] => match cur with [] => [] | _ :: _ => [rev cur] end
  | c :: s' =>
      if isspace c
      then match cur with
           | [] => split_from [] s'
           | _ :: _ => rev cur :: split_from [] s'
           end
      else split_from (c :: cur) s'
  end.

Definition split (s : str) : list str := split_from [] s.

(** [sep.join(l)]. *)
Fixpoint join (sep : str) (l : list str) : str :=
  match l with
  | [] => []
  | [w] => w
  | w :: ws => w ++ sep ++ join sep ws
  end.

Definition space : str := [32%N].

(** Reading a literal: UTF-8 bytes of a Rocq string to code points.
    Only used to write the examples with readable text. *)
Definition cont (a : ascii) : N := N.land (N_of_ascii a) 63.

Fixpoint of_string (s : string) : str :=
  match s with
  | EmptyString => []
  | String a r =>
      let b := N_of_ascii a in
      if (b <? 128)%N then b :: of_string r
      else if (b <? 224)%N then
        match r with
        | String a1 r1 =>
            (N.land b 31 * 64 + cont a1)%N :: of_string r1
        | _ => [b]
        end
      else if (b <? 240)%N then
        match r with
        | String a1 (String a2 r2) =>
            (N.land b 15 * 4096 + cont a1 * 64 + cont a2)%N :: of_string r2
        | _ => [b]
        end
      else
        match r with
        | String a1 (String a2 (String a3 r3)) =>
            (N.land b 7 * 262144 + cont a1 * 4096 + cont a2 * 64 + cont a3)%N
              :: of_string r3
        | _ => [b]
        end
  end.

End PyStr.

Import PyStr.

(** ** The level meter of the capture loop *)

Module Level.

Definition bytes := list Byte.byte.

Definition u8 (b : Byte.byte) : Z := Z.of_N (Byte.to_N b).

(** One little-endian [int16] sample. *)
Definition int16_le (lo hi : Byte.byte) : Z :=
  let u := u8 lo + 256 * u8 hi in
  if u <? 32768 then u else u - 65536.

(** [np.frombuffer(data, dtype=np.int16)]; a buffer of odd length raises
    [ValueError] ([None]). *)
Fixpoint frombuffer_int16 (data : bytes) : option (list Z) :=
  match data with
  | [] => Some []
  | [_] => None
  | lo :: hi :: rest =>
      match frombuffer_int16 rest with
      | Some a => Some (int16_le lo hi :: a)
      | None => None
      end
  end.

(** Two's complement wrap-around into the [int16] range. *)
Definition wrap16 (z : Z) : Z := (z + 32768) mod 65536 - 32768.

(** [np.abs] on an [int16] array keeps the dtype: the result wraps. *)
Definition np_abs (a : list Z) : list Z := map (fun x => wrap16 (Z.abs x)) a.

(** A float as the capture loop produces it: a number or [nan].  The
    sums involved are integers below 2^53 and the divisors used by a
    full frame are powers of two, so the quotient is taken exactly. *)
Inductive pyfloat := Finite (q : Q) | NaN.

Definition sum (a : list Z) : Z := fold_right Z.add 0 a.

(** [a.mean()] of an integer array; [nan] on the empty array. *)
Definition mean (a : list Z) : pyfloat :=
  match a with
  | [] => NaN
  | _ :: _ => Finite (sum a # Pos.of_nat (length a))
  end.

Definition div_32768 (x : pyfloat) : pyfloat :=
  match x with
  | Finite q => Finite (q / 32768)
  | NaN => NaN
  end.

(** Lines 130-131: [np.abs(audio_array).mean() / 32768.0]. *)
Definition audio_level (data : bytes) : option pyfloat :=
  match frombuffer_int16 data with
  | Some audio_array => Some (div_32768 (mean (np_abs audio_array)))
  | None => None
  end.

(** The level is a number in the closed unit interval. *)
Definition in_unit_interval (x : pyfloat) : Prop :=
  match x with
  | Finite q => (0 <= q /\ q <= 1)%Q
  | NaN => False
  end.

End Level.

Import Level.

(** ** The pipeline object and its operations *)

Module Pipeline.

(** What the external services answer in one call. *)
Inductive recognition :=
| Recognized (text : str)       (* recognize_google returned *)
| UnknownValueError             (* sr.UnknownValueError *)
| RequestError                  (* sr.RequestError *)
| OtherError.                   (* any other exception in the cycle *)

Inductive translation :=
| Translated (english_text : str)
| TranslationError.

(** The fields of [TranscriptionPipeline.__init__] the operations read
    or write.  A callback is [None] ([false]) or set ([true]); a thread
    handle is an index in the thread table. *)
Record TranscriptionPipeline := mkPipeline {
  is_running : bool;
  is_paused : bool;
  audio_queue : list (bytes * pyfloat);
  current_bengali_text : str;
  current_english_text : str;
  on_bengali_update : bool;
  on_english_update : bool;
  bengali_medical_terms : gmap str str;
  recording_thread : option nat;
  processing_thread : option nat
}.

(** [__init__]. *)
Definition init : TranscriptionPipeline :=
  {| is_running := false; is_paused := false; audio_queue := [];
     current_bengali_text := []; current_english_text := [];
     on_bengali_update := false; on_english_update := false;
     bengali_medical_terms := ∅;
     recording_thread := None; processing_thread := None |}.

Definition set_flags (r pa : bool) (p : TranscriptionPipeline) :=
  mkPipeline r pa (audio_queue p) (current_bengali_text p)
    (current_english_text p) (on_bengali_update p) (on_english_update p)
    (bengali_medical_terms p) (recording_thread p) (processing_thread p).

Definition set_queue (q : list (bytes * pyfloat)) (p : TranscriptionPipeline) :=
  mkPipeline (is_running p) (is_paused p) q (current_bengali_text p)
    (current_english_text p) (on_bengali_update p) (on_english_update p)
    (bengali_medical_terms p) (recording_thread p) (processing_thread p).

Definition set_bengali (s : str) (p : TranscriptionPipeline) :=
  mkPipeline (is_running p) (is_paused p) (audio_queue p) s
    (current_english_text p) (on_bengali_update p) (on_english_update p)
    (bengali_medical_terms p) (recording_thread p) (processing_thread p).

Definition set_english (s : str) (p : TranscriptionPipeline) :=
  mkPipeline (is_running p) (is_paused p) (audio_queue p)
    (current_bengali_text p) s (on_bengali_update p) (on_english_update p)
    (bengali_medical_terms p) (recording_thread p) (processing_thread p).

Definition set_callbacks (b e : bool) (p : TranscriptionPipeline) :=
  mkPipeline (is_running p) (is_paused p) (audio_queue p)
    (current_bengali_text p) (current_english_text p) b e
    (bengali_medical_terms p) (recording_thread p) (processing_thread p).

Definition set_threads (r pr : option nat) (p : TranscriptionPipeline) :=
  mkPipeline (is_running p) (is_paused p) (audio_queue p)
    (current_bengali_text p) (current_english_text p)
    (on_bengali_update p) (on_english_update p)
    (bengali_medical_terms p) r pr.

(** What a worker does that the outside can observe, in program order.
    The [print] calls are left out; a callback is taken to return. *)
Inductive event :=
| StreamRead (data : bytes)                 (* stream.read returned *)
| QueuePut (data : bytes) (level : pyfloat) (* audio_queue.put *)
| Sleep                                     (* time.sleep(0.1) *)
| WriteWav (frames : list bytes)            (* the window, as a WAV file *)
| Recognize (frames : list bytes)           (* recognize_google called *)
| SetBengali (s : str)                      (* current_bengali_text written *)
| BengaliUpdate (s : str)                   (* on_bengali_update(s) *)
| Translate (text : str)                    (* translator.translate called *)
| SetEnglish (s : str)                      (* current_english_text written *)
| EnglishUpdate (s : str)                   (* on_english_update(s) *)
| Unlink.                                   (* os.unlink(temp_filename) *)

(** [if cb: cb(arg)]. *)
Definition notify (cb : bool) (e : event) : list event :=
  if cb then [e] else [].

(** Lines 188-191 and 203-206:
    [if not cur: cur = text  else: cur += " " + text]. *)
Definition append_text (cur text : str) : str :=
  if truthy cur then cur ++ space ++ text else text.

(** Lines 198-219: the translation of one recognized text, with the
    dictionary fallback of the live path. *)
Definition translate_live (text : str) (tr : translation)
    (p : TranscriptionPipeline) : TranscriptionPipeline * list event :=
  match tr with
  | Translated english_text =>
      let e := append_text (current_english_text p) english_text in
      (set_english e p,
       [Translate text; SetEnglish e]
         ++ notify (on_english_update p) (EnglishUpdate e))
  | TranslationError =>
      match bengali_medical_terms p !! text with
      | Some english_text =>
          let e := current_english_text p ++ space ++ english_text in
          (set_english e p,
           [Translate text; SetEnglish e]
             ++ notify (on_english_update p) (EnglishUpdate e))
      | None => (p, [Translate text])
      end
  end.

(** Lines 177-227: one recognition cycle on the window [frames]. *)
Definition recognition_cycle (frames : list bytes) (rc : recognition)
    (tr : translation) (p : TranscriptionPipeline)
    : TranscriptionPipeline * list event :=
  match rc with
  | Recognized text =>
      if truthy text then
        let b := append_text (current_bengali_text p) text in
        let p1 := set_bengali b p in
        let '(p2, evs) := translate_live text tr p1 in
        (p2,
         [Recognize frames; SetBengali b]
           ++ notify (on_bengali_update p) (BengaliUpdate b) ++ evs)
      else (p, [Recognize frames])
  | UnknownValueError | RequestError | OtherError => (p, [Recognize frames])
  end.

(** The locals of [_processing_loop].  A value of [time.time()] is a
    binary64 float, as in Python. *)
Record ProcLocal := mkProcLocal {
  audio_buffer : list bytes;
  last_process_time : float
}.

Definition process_interval : float := 3.

(** The guard of line 164: the subtraction and the comparison are those
    of binary64, the difference being rounded to the nearest float. *)
Definition window_due (buf : list bytes) (current_time last : float) : bool :=
  match buf with
  | [] => false
  | _ :: _ =>
      PrimFloat.leb process_interval (PrimFloat.sub current_time last)
  end.

(** The number a float stands for, when it is one. *)
Definition exact (f : float) : option Q :=
  match Prim2SF f with
  | S754_zero _ => Some 0%Q
  | S754_finite s m e =>
      Some ((if s then -1 else 1) * inject_Z (Z.pos m) * Qpower 2 e)%Q
  | S754_infinity _ | S754_nan => None
  end.


(** Lines 155-240: the body of the [while] of [_processing_loop].
    [written] tells whether the temporary file could be made and written
    (lines 166-174).  When that raises, the handler of line 242 takes
    over and the loop is left: the queue has been emptied, the window is
    not recognized and the locals are gone ([None]). *)
Definition processing_iteration (written : bool) (current_time : float)
    (rc : recognition) (tr : translation) (p : TranscriptionPipeline)
    (l : ProcLocal)
    : TranscriptionPipeline * option ProcLocal * list event :=
  let buf := audio_buffer l ++ map fst (audio_queue p) in
  let p0 := set_queue [] p in
  if window_due buf current_time (last_process_time l) then
    if written then
      let '(p1, evs) := recognition_cycle buf rc tr p0 in
      (p1, Some (mkProcLocal [] current_time),
       WriteWav buf :: evs ++ [Unlink; Sleep])
    else (p0, None, [])
  else (p0, Some (mkProcLocal buf (last_process_time l)), [Sleep]).

(** Lines 245-274: the manual edit. *)
Definition fallback_words (d : gmap str str) (words : list str) : list str :=
  fold_left
    (fun translated_words word =>
       match d !! word with
       | Some english => translated_words ++ [english]
       | None => translated_words ++ [word]
       end)
    words [].

Definition update_bengali_text (text : str) (tr : translation)
    (p : TranscriptionPipeline) : TranscriptionPipeline * str :=
  let p1 := set_bengali text p in
  let english :=
    match tr with
    | Translated english_text => english_text
    | TranslationError =>
        join space (fallback_words (bengali_medical_terms p1) (split text))
    end in
  (set_english english p1, english).

(** [pause], [resume], and the two halves of [stop]: the flag writes of
    lines 82-83, and, once the bounded joins are over, lines 86-97. *)
Definition pause (p : TranscriptionPipeline) := set_flags (is_running p) true p.
Definition resume (p : TranscriptionPipeline) := set_flags (is_running p) false p.
Definition stop_signal (p : TranscriptionPipeline) := set_flags false false p.
Definition stop_return (p : TranscriptionPipeline)
    : TranscriptionPipeline * (str * str) :=
  (set_threads None None p, (current_bengali_text p, current_english_text p)).

End Pipeline.

Import Pipeline.

(** ** Worker threads and the scheduler *)

Module Threads.

(** Where a [_recording_loop] thread stands inside lines 124-137. *)
Inductive rec_pc :=
| AtWhile                                   (* while self.is_running *)
| AtIfPaused                                (* if not self.is_paused *)
| AtRead                                    (* stream.read(...) *)
| AtPut (data : bytes) (level : pyfloat)    (* self.audio_queue.put(...) *)
| AtSleep.                                  (* time.sleep(0.1) *)

Inductive thread :=
| RecNew                  (* _recording_loop, before the stream is open *)
| Rec (pc : rec_pc)
| ProcNew                 (* _processing_loop, before line 149 *)
| Proc (l : ProcLocal)    (* at the head of its while *)
| Done.

(** What the world outside answers while a thread takes one step: the
    clock, the microphone ([None]: the read raises), the two services. *)
Record env := mkEnv {
  now : float;
  mic : option bytes;
  heard : recognition;
  rendered : translation
}.

(** Where a processing thread stands after an iteration. *)
Definition in_loop (o : option ProcLocal) : thread :=
  match o with
  | Some l => Proc l
  | None => Done
  end.

(** One step of one thread.  A recording thread moves one statement.  A
    processing thread stands at the test of its [while] between two
    steps: one step is that test and, when it passes, the iteration it
    guards.  [written] tells whether the disk takes the temporary file
    in that iteration. *)
Definition worker_step (written : bool) (e : env) (p : TranscriptionPipeline)
    (t : thread) : TranscriptionPipeline * thread * list event :=
  match t with
  | RecNew => (p, Rec AtWhile, [])
  | Rec AtWhile =>
      if is_running p then (p, Rec AtIfPaused, []) else (p, Done, [])
  | Rec AtIfPaused =>
      if negb (is_paused p) then (p, Rec AtRead, []) else (p, Rec AtSleep, [])
  | Rec AtRead =>
      match mic e with
      | Some data =>
          match audio_level data with
          | Some level => (p, Rec (AtPut data level), [StreamRead data])
          | None => (p, Done, [StreamRead data])
          end
      | None => (p, Done, [])
      end
  | Rec (AtPut data level) =>
      (set_queue (audio_queue p ++ [(data, level)]) p, Rec AtWhile,
       [QueuePut data level])
  | Rec AtSleep => (p, Rec AtWhile, [Sleep])
  | ProcNew => (p, Proc (mkProcLocal [] (now e)), [])
  | Proc l =>
      if is_running p then
        let '(p', o, evs) :=
          processing_iteration written (now e) (heard e) (rendered e) p l in
        (p', in_loop o, evs)
      else (p, Done, [])
  | Done => (p, Done, [])
  end.


(** The process: the pipeline object, every thread ever started, and
    the events so far. *)
Record System := mkSystem {
  pipe : TranscriptionPipeline;
  threads : list thread;
  trace : list event
}.

Definition boot : System := mkSystem init [] [].

(** Lines 63-78: [start]. *)
Definition start (s : System) : System :=
  let n := length (threads s) in
  mkSystem
    (set_threads (Some n) (Some (S n)) (set_flags true false (pipe s)))
    (threads s ++ [RecNew; ProcNew])
    (trace s).

(** What the scheduler can pick next. *)
Inductive action :=
| CallStart
| CallPause
| CallResume
| CallStopSignal
| CallStopReturn
| CallEdit (text : str) (tr : translation)   (* update_bengali_text *)
| Run (tid : nat) (e : env)                  (* a step of thread tid *)
| RunUnwritten (tid : nat) (e : env).        (* the same, the disk refusing *)

Definition on_pipe (f : TranscriptionPipeline -> TranscriptionPipeline)
    (s : System) : System :=
  mkSystem (f (pipe s)) (threads s) (trace s).

(** Thread [tid] takes one step; a thread that was never started takes
    none. *)
Definition advance (written : bool) (tid : nat) (e : env) (s : System)
    : System :=
  match threads s !! tid with
  | Some t =>
      let '(p', t', evs) := worker_step written e (pipe s) t in
      mkSystem p' (<[tid := t']> (threads s)) (trace s ++ evs)
  | None => s
  end.

Definition step (a : action) (s : System) : System :=
  match a with
  | CallStart => start s
  | CallPause => on_pipe pause s
  | CallResume => on_pipe resume s
  | CallStopSignal => on_pipe stop_signal s
  | CallStopReturn => on_pipe (fun p => fst (stop_return p)) s
  | CallEdit text tr => on_pipe (fun p => fst (update_bengali_text text tr p)) s
  | Run tid e => advance true tid e s
  | RunUnwritten tid e => advance false tid e s
  end.

Definition run (sched : list action) (s : System) : System :=
  fold_left (fun s a => step a s) sched s.

(** Threads that have not finished. *)
Definition alive (t : thread) : bool :=
  match t with Done => false | _ => true end.

Definition workers (s : System) : nat := length (List.filter alive (threads s)).

Definition is_put (e : event) : bool :=
  match e with QueuePut _ _ => true | _ => false end.
Definition is_recognize (e : event) : bool :=
  match e with Recognize _ => true | _ => false end.

Definition count (f : event -> bool) (evs : list event) : nat :=
  length (List.filter f evs).

End Threads.

Import Threads.

(** ** The guards of the main window *)

Module UI.

(** [TranscriptionWorker]: its own flag [running] and the [QThread]
    state [isRunning()]. *)
Record TranscriptionWorker := mkWorker {
  running : bool;
  isRunning : bool
}.

Inductive status :=
| Ready
| RecordingMsg            (* "Recording..." *)
| StartingMsg             (* "Starting transcription..." *)
| TranslatingMsg          (* "Translating..." *)
| TranslationUpdatedMsg.  (* "Translation updated" *)

Record MainWindow := mkWindow {
  process : System;                    (* holds self.pipeline *)
  worker : option TranscriptionWorker;
  bengali_text : str;                  (* the two editors *)
  english_text : str;
  session_bengali : str;               (* current_session *)
  session_english : str;
  timers : list str;                   (* pending delayed_translation(text) *)
  start_enabled : bool;
  status_bar : status
}.

(** [self.worker and self.worker.isRunning()]. *)
Definition worker_active (w : MainWindow) : bool :=
  match worker w with
  | Some k => isRunning k
  | None => false
  end.

(** Lines 267-287: [start_recording].  Building the worker installs the
    two callbacks on the pipeline; [worker.start()] makes the thread
    run, its body begins in [worker_run]. *)
Definition start_recording (w : MainWindow) : MainWindow :=
  if worker_active w then w
  else
    mkWindow (on_pipe (set_callbacks true true) (process w))
      (Some (mkWorker false true))
      (bengali_text w) (english_text w)
      (session_bengali w) (session_english w) (timers w)
      false RecordingMsg.

(** Lines 95-99: the worker thread enters [run] and calls
    [pipeline.start()]. *)
Definition worker_run (w : MainWindow) : MainWindow :=
  match worker w with
  | Some k =>
      mkWindow (start (process w))
        (Some (mkWorker true (isRunning k)))
        (bengali_text w) (english_text w)
        (session_bengali w) (session_english w) (timers w)
        (start_enabled w) StartingMsg
  | None => w
  end.

(** The user types in the Bengali editor. *)
Definition type_bengali (text : str) (w : MainWindow) : MainWindow :=
  mkWindow (process w) (worker w) text (english_text w)
    (session_bengali w) (session_english w) (timers w)
    (start_enabled w) (status_bar w).

(** Lines 396-418: [on_bengali_edited]. *)
Definition on_bengali_edited (w : MainWindow) : MainWindow :=
  if worker_active w then w
  else
    let text := bengali_text w in
    if truthy text then
      mkWindow (process w) (worker w) (bengali_text w) (english_text w)
        text (session_english w) (timers w ++ [text])
        (start_enabled w) TranslatingMsg
    else
      mkWindow (process w) (worker w) (bengali_text w) (english_text w)
        text (session_english w) (timers w)
        (start_enabled w) (status_bar w).

(** Lines 413-416: the closure [delayed_translation] fires. *)
Definition delayed_translation (tr : translation) (w : MainWindow) : MainWindow :=
  match timers w with
  | [] => w
  | text :: rest =>
      let '(p, english) := update_bengali_text text tr (pipe (process w)) in
      mkWindow (on_pipe (fun _ => p) (process w)) (worker w)
        (bengali_text w) english
        (session_bengali w) english rest
        (start_enabled w) TranslationUpdatedMsg
  end.

Definition window : MainWindow :=
  mkWindow boot None [] [] [] [] [] true Ready.

End UI.

Import UI.

(** ** What the specification says, in its own words *)

Module Spec.

(** Section 4.4, failure branch: every token that is a key of the
    dictionary is replaced by its value, the others stay, and the
    tokens are joined with single spaces. *)
Definition replace_token (d : gmap str str) (word : str) : str :=
  match d !! word with
  | Some english => english
  | None => word
  end.

Definition word_by_word (d : gmap str str) (text : str) : str :=
  join space (map (replace_token d) (split text)).

(** A text written out as words, each followed by a run of whitespace. *)
Fixpoint spaced (ws : list (str * str)) : str :=
  match ws with
  | [] => []
  | (w, gap) :: r => w ++ gap ++ spaced r
  end.

(** A word is non-empty and free of whitespace; the run after it is
    non-empty and all whitespace. *)
Definition word_and_gap (wg : str * str) : Prop :=
  truthy (fst wg) = true /\ existsb isspace (fst wg) = false /\
  truthy (snd wg) = true /\ forallb isspace (snd wg) = true.

(** A run of recognition cycles, each with its window and the answers
    of the two services. *)
Definition run_cycles (cycles : list (list bytes * recognition * translation))
    (p : TranscriptionPipeline) : TranscriptionPipeline * list event :=
  fold_left
    (fun acc c =>
       let '(frames, rc, tr) := c in
       let '(p', evs) := recognition_cycle frames rc tr (fst acc) in
       (p', snd acc ++ evs))
    cycles (p, []).

(** A cycle in which both services answer. *)
Definition success (c : list bytes * str * str)
    : list bytes * recognition * translation :=
  let '(frames, text, english) := c in
  (frames, Recognized text, Translated english).

Definition recognized_of (c : list bytes * str * str) : str := snd (fst c).
Definition translated_of (c : list bytes * str * str) : str := snd c.

(** The texts left once the empty ones at the front are dropped. *)
Fixpoint drop_leading_empty (l : list str) : list str :=
  match l with
  | [] => []
  | [] :: r => drop_leading_empty r
  | (_ :: _) :: _ => l
  end.

(** Section 8, append invariant and scenario, as written. *)
Definition append_invariant : Prop :=
  forall (cycles : list (list bytes * str * str)) (p : TranscriptionPipeline),
    current_bengali_text p = [] -> current_english_text p = [] ->
    Forall (fun c => truthy (recognized_of c) = true) cycles ->
    let p' := fst (run_cycles (map success cycles) p) in
    current_bengali_text p' = join space (map recognized_of cycles) /\
    current_english_text p' = join space (map translated_of cycles).


(** Section 4.5: start while Running or Paused is a no-op. *)
Definition start_is_noop : Prop :=
  forall s : System, is_running (pipe s) = true -> start s = s.



Definition weight (f : thread -> bool) (t : thread) : nat :=
  if f t then 1%nat else 0%nat.
Definition census (f : thread -> bool) (ts : list thread) : nat :=
  fold_right (fun t n => (weight f t + n)%nat) 0%nat ts.


End Spec.

Import Spec.

(** ** Examples of data *)

Module Samples.

Definition byathaa : str := of_string "ব্যথা".
Definition pain : str := of_string "pain".
Definition sentence : str := of_string "আমার ব্যথা আছে".
Definition medical : gmap str str := {[ byathaa := pain ]}.

(** A frame of 1024 samples, every one equal to -32768. *)
Definition loudest_frame : bytes :=
  concat (repeat [Byte.x00; Byte.x80] 1024).

Definition silent_frame : bytes :=
  concat (repeat [Byte.x00; Byte.x00] 1024).

Definition quiet_env (t : float) : env :=
  mkEnv t (Some silent_frame) UnknownValueError TranslationError.


End Samples.

Import Samples.

(** ** Reading a trace *)

Module Flow.

(** The frames pushed on the queue, in the order of the pushes. *)
Fixpoint frames_put (evs : list event) : list bytes :=
  match evs with
  | [] => []
  | QueuePut data _ :: r => data :: frames_put r
  | _ :: r => frames_put r
  end.

(** The frames the microphone delivered, in the order of the reads. *)
Fixpoint frames_read (evs : list event) : list bytes :=
  match evs with
  | [] => []
  | StreamRead data :: r => data :: frames_read r
  | _ :: r => frames_read r
  end.

(** The frames written to the temporary WAV files, window after window. *)
Fixpoint frames_windowed (evs : list event) : list bytes :=
  match evs with
  | [] => []
  | WriteWav frames :: r => frames ++ frames_windowed r
  | _ :: r => frames_windowed r
  end.

Definition is_set_bengali (e : event) : bool :=
  match e with SetBengali _ => true | _ => false end.
Definition is_set_english (e : event) : bool :=
  match e with SetEnglish _ => true | _ => false end.

Definition is_start (a : action) : bool :=
  match a with CallStart => true | _ => false end.
Definition is_edit (a : action) : bool :=
  match a with CallEdit _ _ => true | _ => false end.
Definition is_run (a : action) : bool :=
  match a with Run _ _ | RunUnwritten _ _ => true | _ => false end.

(** How often the scheduler picks thread [tid]. *)
Definition runs_of (tid : nat) (sched : list action) : nat :=
  length (List.filter
            (fun a => match a with
                      | Run k _ | RunUnwritten k _ => Nat.eqb k tid
                      | _ => false
                      end)
            sched).

(** An upper bound on the steps a thread still takes once [is_running]
    is false. *)
Definition remaining (t : thread) : nat :=
  match t with
  | RecNew => 2
  | Rec AtWhile => 1
  | Rec AtIfPaused => 4
  | Rec AtRead => 3
  | Rec (AtPut _ _) => 2
  | Rec AtSleep => 2
  | ProcNew => 2
  | Proc _ => 1
  | Done => 0
  end%nat.

(** The two kinds of worker. *)
Definition recorder (t : thread) : bool :=
  match t with RecNew | Rec _ => true | _ => false end.
Definition processing (t : thread) : bool :=
  match t with ProcNew | Proc _ => true | _ => false end.

(** Recording threads that may still push a frame once [is_running] is
    false. *)
Definition owes_put (t : thread) : bool :=
  match t with
  | Rec AtIfPaused | Rec AtRead | Rec (AtPut _ _) => true
  | _ => false
  end.

(** The books of a session with one recording and one processing thread:
    what was read against what was pushed, and what was pushed against
    what was windowed, buffered or still queued. *)
Definition capture_ok (t : thread) (reads puts : list bytes) : Prop :=
  match t with
  | RecNew => reads = puts
  | Rec (AtPut data _) => reads = puts ++ [data]
  | Rec _ => reads = puts
  | Done => puts `prefix_of` reads
  | ProcNew | Proc _ => False
  end.

Definition assembly_ok (t : thread) (puts windowed queued : list bytes) : Prop :=
  match t with
  | ProcNew => puts = windowed ++ queued
  | Proc l => puts = windowed ++ audio_buffer l ++ queued
  | Done => windowed `prefix_of` puts
  | RecNew | Rec _ => False
  end.

Definition session_ok (s : System) : Prop :=
  exists t0 t1,
    threads s = [t0; t1] /\
    capture_ok t0 (frames_read (trace s)) (frames_put (trace s)) /\
    assembly_ok t1 (frames_put (trace s)) (frames_windowed (trace s))
      (map fst (audio_queue (pipe s))).

End Flow.

Import Flow.

(** ** The level bar of the window *)

Module Widget.

(** [AudioLevelWidget.level] is a Python [int]. *)

(** Lines 33-36: [set_level]. *)
Definition set_level (level : Z) : Z := Z.min 100 (Z.max 0 level).

(** Lines 38-42: [decay], run by the widget's timer every 100 ms. *)
Definition decay (level : Z) : Z :=
  if 0 <? level then Z.max 0 (level - 5) else level.

(** Lines 58-59 of [paintEvent]: while recording, the level moves by a
    draw of [random.randint(-10, 15)]. *)
Definition paint_level (recording : bool) (draw : Z) (level : Z) : Z :=
  if recording then Z.min 100 (level + draw) else level.

(** What happens to the widget between two calls of the window: its
    own timer fires [decay]; Qt paints it, after the [update()] of
    [set_level] or [decay] or for any other reason; or the timer of the
    window fires [update_audio_level] (lines 436-443).  [draw] is what
    [random.randint] returns. *)
Inductive happening :=
| Tick
| Paint (draw : Z)
| Meter (draw : Z).

Definition happen (recording : bool) (h : happening) (level : Z) : Z :=
  match h with
  | Tick => decay level
  | Paint draw => paint_level recording draw level
  | Meter draw => if recording then set_level draw else level
  end.

Definition happenings (recording : bool) (hs : list happening) (level : Z)
    : Z :=
  fold_left (fun l h => happen recording h l) hs level.

Definition is_tick (h : happening) : bool :=
  match h with Tick => true | _ => false end.

Definition ticks (hs : list happening) : nat :=
  length (List.filter is_tick hs).

Inductive color := Green | Orange | Red.

(** Lines 63-68 of [paintEvent]: the colour of the bar. *)
Definition bar_color (level : Z) : color :=
  if level <? 30 then Green
  else if level <? 80 then Orange
  else Red.

End Widget.

Import Widget.

(** ** Session files *)

Module Session.

Definition nl : str := [10%N].

(** [s.startswith(pre)] and [s.endswith(suf)]. *)
Fixpoint startswith (pre s : str) : bool :=
  match pre, s with
  | [], _ => true
  | _ :: _, [] => false
  | a :: pre', b :: s' => (a =? b)%N && startswith pre' s'
  end.

Definition endswith (suf s : str) : bool := startswith (rev suf) (rev s).

(** [sep in s]. *)
Fixpoint occurs (sep s : str) : bool :=
  startswith sep s
  || match s with
     | [] => false
     | _ :: r => occurs sep r
     end.

(** [s.split(sep)] for a non-empty [sep]: the pieces between the
    occurrences of [sep], found from the left and not overlapping.  [cur]
    is the piece being read, reversed; [skip] counts the characters of a
    separator just found that are still to be passed. *)
Fixpoint split_sep_from (sep cur : str) (skip : nat) (s : str) : list str :=
  match s with
  | [] => [rev cur]
  | c :: s' =>
      match skip with
      | S k => split_sep_from sep cur k s'
      | O =>
          if startswith sep s
          then rev cur :: split_sep_from sep [] (length sep - 1) s'
          else split_sep_from sep (c :: cur) 0 s'
      end
  end.

Definition split_sep (sep s : str) : list str := split_sep_from sep [] 0 s.

(** [s.strip()]. *)
Fixpoint lstrip (s : str) : str :=
  match s with
  | [] => []
  | c :: r => if isspace c then lstrip r else s
  end.

Definition rstrip (s : str) : str := rev (lstrip (rev s)).
Definition strip (s : str) : str := rstrip (lstrip s).

(** A suffix of [sep], proper and non-empty, that is also a prefix of it. *)
Definition overlaps (sep : str) : bool :=
  existsb (fun k => startswith (drop k sep) sep) (seq 1 (length sep - 1)).

(** No text that begins with two newlines begins with [p]. *)
Definition off_blank_line (p : str) : bool :=
  match p with
  | [] => false
  | [a] => negb (a =? 10)%N
  | a :: b :: _ => negb ((a =? 10)%N && (b =? 10)%N)
  end.

(** However [sep] is cut in two, the first part holds a newline or the
    second cannot begin a text that begins with two newlines. *)
Definition never_across_blank_line (sep : str) : bool :=
  forallb (fun k => existsb (N.eqb 10) (take k sep) || off_blank_line (drop k sep))
          (seq 1 (length sep - 1)).

(** No proper non-empty prefix of [sep] ends the text [x]. *)
Definition never_across_end (sep x : str) : bool :=
  forallb (fun k => negb (endswith (take k sep) x)) (seq 1 (length sep - 1)).

(** A file opened with [encoding='utf-8'] takes the characters UTF-8 can
    encode: the code points up to 0x10FFFF that are no surrogates. *)
Definition encodable (c : char) : bool :=
  ((c <? 55296) || (57343 <? c) && (c <=? 1114111))%N.

(** Reading in text mode turns "\r\n" and "\r" into "\n". *)
Fixpoint universal_newlines (s : str) : str :=
  match s with
  | [] => []
  | c :: r =>
      if (c =? 13)%N then
        10%N :: match r with
                | [] => []
                | d :: r' =>
                    if (d =? 10)%N then universal_newlines r'
                    else universal_newlines r
                end
      else c :: universal_newlines r
  end.

(** The strings of lines 467-473 and 499-503. *)
Definition bengali_title : str := of_string "BENGALI TRANSCRIPTION" ++ nl.
Definition bengali_rule : str := of_string "====================" ++ nl ++ nl.
Definition english_title : str := nl ++ nl ++ of_string "ENGLISH TRANSLATION" ++ nl.
Definition english_rule : str := of_string "===================" ++ nl ++ nl.
Definition stamp_label : str := nl ++ nl ++ of_string "Timestamp: ".

Definition bengali_header : str :=
  of_string "BENGALI TRANSCRIPTION" ++ nl ++ of_string "====================" ++ nl ++ nl.
Definition english_marker : str := nl ++ nl ++ of_string "ENGLISH TRANSLATION".
Definition english_header : str :=
  of_string "ENGLISH TRANSLATION" ++ nl ++ of_string "===================" ++ nl ++ nl.
Definition stamp_marker : str := nl ++ nl ++ of_string "Timestamp:".

Definition extension : str := of_string ".transcript".

(** Lines 467-473: what the seven [f.write] calls put in the file;
    [stamp] is the formatted timestamp. *)
Definition session_text (bengali english stamp : str) : str :=
  bengali_title ++ bengali_rule ++ bengali ++ english_title ++ english_rule
    ++ english ++ stamp_label ++ stamp.

Inductive save_result :=
| NothingToSave                               (* the warning box *)
| SaveCancelled                               (* no file name chosen *)
| Saved (filename : str) (content : str)
| SaveError.                                  (* the critical box *)

(** Lines 445-481: [save_session] on the two texts of the session, with
    the file name the dialog returned.  [writable] tells whether [open]
    and the writes get through to the disk; when they do not, or when a
    text cannot be encoded, the handler of line 480 shows the critical
    box. *)
Definition save_session (writable : bool) (bengali english chosen stamp : str)
    : save_result :=
  if negb (truthy bengali) && negb (truthy english) then NothingToSave
  else if negb (truthy chosen) then SaveCancelled
  else
    let filename :=
      if endswith extension chosen then chosen else chosen ++ extension in
    let content := session_text bengali english stamp in
    if writable && forallb encodable content then Saved filename content
    else SaveError.

(** [xs[i]]: [None] is the [IndexError]. *)
Definition item (xs : list str) (i : nat) : option str := nth_error xs i.

(** Lines 499-503: what [load_session] reads out of the text of a file,
    the two texts it hands to the editors and the session; [None] is
    the critical box. *)
Definition parse_session (content : str) : option (str * str) :=
  match item (split_sep bengali_header content) 1 with
  | None => None
  | Some bengali_section =>
      match item (split_sep english_marker bengali_section) 0 with
      | None => None
      | Some bengali_part =>
          match item (split_sep english_header content) 1 with
          | None => None
          | Some english_section =>
              match item (split_sep stamp_marker english_section) 0 with
              | None => None
              | Some english_part => Some (strip bengali_part, strip english_part)
              end
          end
      end
  end.

Definition load_session (file_text : str) : option (str * str) :=
  parse_session (universal_newlines file_text).

(** Lines 555-561: what [export_as_txt] writes; [stamp] is the formatted
    time of the export. *)
Definition export_label : str := nl ++ nl ++ of_string "Exported on: ".

Definition export_text (bengali english stamp : str) : str :=
  bengali_title ++ bengali_rule ++ bengali ++ english_title ++ english_rule
    ++ english ++ export_label ++ stamp.

End Session.

Import Session.

(** ** Typing in the Bengali editor *)

Module Edits.

(** What happens to an idle window: the user leaves [text] in the Bengali
    editor, which calls [on_bengali_edited]; or the oldest pending
    [delayed_translation] fires and the translator answers [tr]. *)
Inductive gesture :=
| Typed (text : str)
| Fired (tr : translation).

Definition act (g : gesture) (w : MainWindow) : MainWindow :=
  match g with
  | Typed text => on_bengali_edited (type_bengali text w)
  | Fired tr => delayed_translation tr w
  end.

Definition acts (gs : list gesture) (w : MainWindow) : MainWindow :=
  fold_left (fun w g => act g w) gs w.



End Edits.

Import Edits.

(** ** The buttons of the window *)

Module Controls.

(** The text on the pause button, and the text of the status bar. *)
Inductive caption := PauseCaption | ResumeCaption.

Inductive message :=
| ReadyText               (* "Ready" *)
| RecordingText           (* "Recording..." *)
| PausedText              (* "Paused" *)
| StartingText            (* "Starting transcription..." *)
| StoppedText.            (* "Transcription stopped" *)

(** The window with the widgets the three buttons touch.  [bar] is the
    text of the status bar after these handlers; [status_bar] of [win]
    keeps the texts of the handlers of the editors. *)
Record Panel := mkPanel {
  win : MainWindow;
  bar : message;
  pause_button : caption;
  pause_enabled : bool;
  stop_enabled : bool;
  meter_recording : bool;      (* audio_level.recording *)
  audio_timer : bool           (* audio_timer.isActive() *)
}.

(** [MainWindow.__init__] and [init_ui]. *)
Definition panel : Panel :=
  mkPanel window ReadyText PauseCaption false false false false.

Definition set_process (s : System) (w : MainWindow) : MainWindow :=
  mkWindow s (worker w) (bengali_text w) (english_text w)
    (session_bengali w) (session_english w) (timers w)
    (start_enabled w) (status_bar w).

(** Lines 267-287: [start_recording], with its buttons and timer. *)
Definition click_start (c : Panel) : Panel :=
  if worker_active (win c) then c
  else mkPanel (start_recording (win c)) RecordingText (pause_button c)
         true true true true.

(** Lines 95-99: the worker thread begins [run]; its status signal
    reaches the status bar. *)
Definition begin_run (c : Panel) : Panel :=
  match worker (win c) with
  | Some _ =>
      mkPanel (worker_run (win c)) StartingText (pause_button c)
        (pause_enabled c) (stop_enabled c) (meter_recording c) (audio_timer c)
  | None => c
  end.

(** Lines 289-307: [toggle_pause]. *)
Definition toggle_pause (c : Panel) : Panel :=
  if negb (worker_active (win c)) then c
  else
    match pause_button c with
    | PauseCaption =>
        mkPanel (set_process (on_pipe pause (process (win c))) (win c))
          PausedText ResumeCaption (pause_enabled c) (stop_enabled c)
          false false
    | ResumeCaption =>
        mkPanel (set_process (on_pipe resume (process (win c))) (win c))
          RecordingText PauseCaption (pause_enabled c) (stop_enabled c)
          true true
    end.

(** Lines 309-326 with lines 101-116: [stop_recording].  [worker.stop()]
    clears the flag of the worker and waits for [run] to return; [run]
    leaves its loop, calls [pipeline.stop()] and sends the two texts and
    the last status, which reach the editors, the session and the status
    bar once the handler has returned.  [sched] is what the threads of
    the pipeline do while [stop] joins them.  When [run] has not begun,
    it sets the flag again when it begins and never leaves its loop, so
    the wait does not end ([None]).  The level of the bar, which the
    handler sets to 0, is in [Widget]. *)
Definition stop_recording (sched : list action) (c : Panel) : option Panel :=
  if negb (worker_active (win c)) then Some c
  else
    match worker (win c) with
    | None => Some c
    | Some k =>
        if running k then
          let joined :=
            run (List.filter is_run sched)
                (on_pipe stop_signal (process (win c))) in
          let '(p, (bengali, english)) := stop_return (pipe joined) in
          Some (mkPanel
                  (mkWindow (mkSystem p (threads joined) (trace joined))
                     (Some (mkWorker false false))
                     bengali english bengali english (timers (win c))
                     true (status_bar (win c)))
                  StoppedText PauseCaption false false false false)
        else None
    end.

(** What happens to the window: a button is pressed, or a thread of the
    pipeline takes a step.  After the start button the worker thread
    begins [run] before anything else happens. *)
Inductive click :=
| PressStart
| PressPause
| PressStop (sched : list action)
| Work (tid : nat) (e : env).

Definition press (k : click) (c : Panel) : option Panel :=
  match k with
  | PressStart =>
      Some (if worker_active (win c) then c else begin_run (click_start c))
  | PressPause => Some (toggle_pause c)
  | PressStop sched => stop_recording sched c
  | Work tid e =>
      Some (mkPanel (set_process (step (Run tid e) (process (win c))) (win c))
              (bar c) (pause_button c) (pause_enabled c) (stop_enabled c)
              (meter_recording c) (audio_timer c))
  end.

Fixpoint presses (ks : list click) (c : Panel) : option Panel :=
  match ks with
  | [] => Some c
  | k :: r =>
      match press k c with
      | Some c' => presses r c'
      | None => None
      end
  end.

Definition shows_resume (c : Panel) : bool :=
  match pause_button c with ResumeCaption => true | PauseCaption => false end.

(** The window and the pipeline tell the same story. *)
Definition in_step (c : Panel) : Prop :=
  let p := pipe (process (win c)) in
  worker_active (win c) = is_running p /\
  shows_resume c = is_paused p /\
  negb (is_running p) && is_paused p = false /\
  start_enabled (win c) = negb (is_running p) /\
  pause_enabled c = is_running p /\
  stop_enabled c = is_running p /\
  meter_recording c = is_running p && negb (is_paused p) /\
  audio_timer c = is_running p && negb (is_paused p) /\
  match worker (win c) with
  | Some k => running k = isRunning k
  | None => True
  end.

End Controls.

Import Controls.

(** ** Strings: splitting and joining *)

Section Strings.

Lemma truthy_nonempty (s : str) : truthy s = true <-> s <> [].
Proof. destruct s; simpl; split; congruence. Qed.

Lemma truthy_app_l (s t : str) : truthy s = true -> truthy (s ++ t) = true.
Proof. destruct s; simpl; congruence. Qed.

Lemma existsb_isspace_rev (cur : str) :
  existsb isspace (rev cur) = existsb isspace cur.
Proof.
  induction cur as [|c cur IH]; simpl; [reflexivity|].
  rewrite existsb_app, IH. simpl. rewrite orb_false_r. apply orb_comm.
Qed.

(** Every token of [split] is non-empty and free of whitespace. *)
Lemma split_from_tokens (s cur : str) :
  existsb isspace cur = false ->
  Forall (fun w => truthy w = true /\ existsb isspace w = false)
         (split_from cur s).
Proof.
  revert cur. induction s as [|c s IH]; intros cur Hcur; simpl.
  - destruct cur as [|k cur]; constructor; [|constructor].
    split.
    + apply truthy_nonempty. simpl. intros H.
      apply app_eq_nil in H. destruct H; discriminate.
    + rewrite existsb_isspace_rev. exact Hcur.
  - destruct (isspace c) eqn:Hc.
    + destruct cur as [|k cur]; [apply IH; reflexivity|].
      constructor; [|apply IH; reflexivity].
      split.
      * apply truthy_nonempty. simpl. intros H.
        apply app_eq_nil in H. destruct H; discriminate.
      * rewrite existsb_isspace_rev. exact Hcur.
    + apply IH. simpl. rewrite Hc. exact Hcur.
Qed.

Lemma split_tokens (s : str) :
  Forall (fun w => truthy w = true /\ existsb isspace w = false) (split s).
Proof. apply split_from_tokens. reflexivity. Qed.

(** The loop of lines 266-271 is a [map]. *)
Lemma fallback_words_from (d : gmap str str) (words acc : list str) :
  fold_left
    (fun translated_words word =>
       match d !! word with
       | Some english => translated_words ++ [english]
       | None => translated_words ++ [word]
       end) words acc
  = acc ++ map (replace_token d) words.
Proof.
  revert acc. induction words as [|w ws IH]; intros acc; simpl.
  - symmetry. apply app_nil_r.
  - rewrite IH. unfold replace_token.
    destruct (d !! w); rewrite <- app_assoc; reflexivity.
Qed.

Lemma fallback_words_map (d : gmap str str) (words : list str) :
  fallback_words d words = map (replace_token d) words.
Proof. unfold fallback_words. apply fallback_words_from. Qed.

Lemma replace_token_empty (word : str) : replace_token ∅ word = word.
Proof. unfold replace_token. rewrite lookup_empty. reflexivity. Qed.

Lemma map_replace_token_empty (words : list str) :
  map (replace_token ∅) words = words.
Proof.
  induction words as [|w ws IH]; simpl; [reflexivity|].
  rewrite replace_token_empty, IH. reflexivity.
Qed.

End Strings.

(** ** Whitespace tokens *)

Section Tokens.

Lemma split_from_word (w cur rest : str) :
  existsb isspace w = false ->
  split_from cur (w ++ rest) = split_from (rev w ++ cur) rest.
Proof.
  revert cur. induction w as [|c w IH]; intros cur Hw; [reflexivity|].
  simpl in Hw. apply orb_false_iff in Hw. destruct Hw as [Hc Hw].
  simpl. rewrite Hc, IH by exact Hw. rewrite <- app_assoc. reflexivity.
Qed.

Lemma split_from_space (cur rest : str) :
  split_from cur (space ++ rest)
  = match cur with
    | [] => split_from [] rest
    | _ :: _ => rev cur :: split_from [] rest
    end.
Proof. reflexivity. Qed.

Lemma split_join (ws : list str) :
  Forall (fun w => truthy w = true /\ existsb isspace w = false) ws ->
  split (join space ws) = ws.
Proof.
  induction 1 as [|w ws [Hw Hs] Hall IH]; [reflexivity|].
  unfold split in *. destruct ws as [|w2 ws].
  - simpl join. rewrite <- (app_nil_r w) at 1.
    rewrite split_from_word by exact Hs. rewrite app_nil_r. simpl.
    destruct (rev w) as [|c r] eqn:Hrev.
    + apply (f_equal (@rev N)) in Hrev. rewrite rev_involutive in Hrev.
      subst w. discriminate Hw.
    + rewrite <- Hrev, rev_involutive. reflexivity.
  - change (join space (w :: w2 :: ws))
      with (w ++ space ++ join space (w2 :: ws)).
    rewrite split_from_word by exact Hs. rewrite app_nil_r, split_from_space.
    destruct (rev w) as [|c r] eqn:Hrev.
    + apply (f_equal (@rev N)) in Hrev. rewrite rev_involutive in Hrev.
      subst w. discriminate Hw.
    + rewrite <- Hrev, rev_involutive, IH. reflexivity.
Qed.

Lemma split_from_blank (s cur : str) :
  split_from cur s = [] <-> cur = [] /\ forallb isspace s = true.
Proof.
  revert cur. induction s as [|c s IH]; intros cur; simpl.
  - destruct cur; split; try discriminate; try (intros [H _]; discriminate H);
      auto.
  - destruct (isspace c) eqn:Hc; simpl.
    + destruct cur as [|k cur].
      * rewrite IH. reflexivity.
      * split; [discriminate | intros [H _]; discriminate H].
    + rewrite IH. split; [intros [H _]; discriminate H | intros [_ H]; discriminate H].
Qed.

(** A run of whitespace before a word is skipped. *)
Lemma split_from_gap (g rest : str) :
  forallb isspace g = true -> split_from [] (g ++ rest) = split_from [] rest.
Proof.
  induction g as [|c g IH]; intros H; [reflexivity|].
  simpl in H. apply andb_true_iff in H. destruct H as [Hc Hg].
  simpl. rewrite Hc. apply IH. exact Hg.
Qed.

Lemma rev_word (w : str) :
  truthy w = true ->
  match rev w with [] => [] | _ :: _ => [rev (rev w)] end = [w].
Proof.
  intros Hw. destruct (rev w) as [|c r] eqn:Hrev.
  - apply (f_equal (@rev N)) in Hrev. rewrite rev_involutive in Hrev.
    subst w. discriminate Hw.
  - rewrite <- Hrev, rev_involutive. reflexivity.
Qed.

(** A word and the whitespace after it. *)
Lemma split_from_word_gap (w g rest : str) :
  truthy w = true -> existsb isspace w = false ->
  truthy g = true -> forallb isspace g = true ->
  split_from [] (w ++ g ++ rest) = w :: split_from [] rest.
Proof.
  intros Hw Hs Hg Hb. rewrite split_from_word by exact Hs.
  rewrite app_nil_r. destruct g as [|c g]; [discriminate Hg|].
  simpl in Hb. apply andb_true_iff in Hb. destruct Hb as [Hc Hb].
  simpl. rewrite Hc. destruct (rev w) as [|k r] eqn:Hrev.
  - apply (f_equal (@rev N)) in Hrev. rewrite rev_involutive in Hrev.
    subst w. discriminate Hw.
  - rewrite <- Hrev, rev_involutive, split_from_gap by exact Hb.
    reflexivity.
Qed.

(** [split] on any text, read as leading whitespace, words each with the
    whitespace after it, and a last word that may be missing. *)
Lemma split_spaced (lead tail : str) (ws : list (str * str)) :
  forallb isspace lead = true ->
  Forall word_and_gap ws ->
  existsb isspace tail = false ->
  split (lead ++ spaced ws ++ tail)
  = map fst ws ++ (if truthy tail then [tail] else []).
Proof.
  intros Hl Hws Ht. unfold split. rewrite split_from_gap by exact Hl.
  induction Hws as [|[w g] ws (Hw & Hs & Hg & Hb) _ IH].
  - cbn [spaced app map]. rewrite <- (app_nil_r tail) at 1.
    rewrite split_from_word by exact Ht. rewrite app_nil_r.
    cbn [split_from]. destruct (truthy tail) eqn:Htail.
    + apply rev_word. exact Htail.
    + destruct tail; [reflexivity | discriminate Htail].
  - cbn [spaced map fst]. rewrite <- !app_assoc.
    cbn [fst snd] in Hw, Hs, Hg, Hb.
    rewrite split_from_word_gap by assumption.
    cbn [app]. rewrite IH. reflexivity.
Qed.

End Tokens.

(** ** The manual edit *)

(** C4: when the translation fails, the manual edit stores the text
    verbatim as source text, and stores and returns as target text the
    whitespace tokens of the text, each dictionary key replaced by its
    value, the others unchanged, joined with single spaces; every token
    is non-empty and free of whitespace.  With the dictionary
    {"ব্যথা": "pain"}, "আমার ব্যথা আছে" gives "আমার pain আছে". *)
Theorem C4_manual_edit_fallback :
  (forall (text : str) (p : TranscriptionPipeline),
     let r := update_bengali_text text TranslationError p in
     current_bengali_text (fst r) = text /\
     current_english_text (fst r) = word_by_word (bengali_medical_terms p) text /\
     snd r = word_by_word (bengali_medical_terms p) text /\
     Forall (fun w => truthy w = true /\ existsb isspace w = false) (split text)) /\
  (forall p : TranscriptionPipeline,
     bengali_medical_terms p = medical ->
     snd (update_bengali_text sentence TranslationError p)
       = of_string "আমার pain আছে").
Proof.
  split.
  - intros text p. simpl. unfold word_by_word.
    rewrite fallback_words_map. repeat split. apply split_tokens.
  - intros p Hd. unfold update_bengali_text. simpl.
    rewrite Hd, fallback_words_map. vm_compute. reflexivity.
Qed.

Lemma C4_manual_edit_fallback_witness :
  snd (update_bengali_text sentence TranslationError
         (mkPipeline false false [] [] [] false false medical None None))
  = of_string "আমার pain আছে".
Proof.
  apply (proj2 C4_manual_edit_fallback). reflexivity.
Defined.




(** ** Starting *)

(** C3: [start] tests nothing.  From any state it sets [is_running],
    clears [is_paused], leaves the transcripts and the queue alone, keeps
    every existing thread as it is, adds two new workers and points the
    two handles at them.  The no-op is in the main window:
    [start_recording] returns at once while the worker runs. *)
Theorem C3_start_guard_is_in_the_window :
  (forall s : System,
     is_running (pipe (start s)) = true /\
     is_paused (pipe (start s)) = false /\
     current_bengali_text (pipe (start s)) = current_bengali_text (pipe s) /\
     current_english_text (pipe (start s)) = current_english_text (pipe s) /\
     audio_queue (pipe (start s)) = audio_queue (pipe s) /\
     threads (start s) = threads s ++ [RecNew; ProcNew] /\
     workers (start s) = (workers s + 2)%nat /\
     recording_thread (pipe (start s)) = Some (length (threads s)) /\
     processing_thread (pipe (start s)) = Some (S (length (threads s)))) /\
  (forall w : MainWindow, worker_active w = true -> start_recording w = w).
Proof.
  split.
  - intros s. repeat split.
    unfold workers, start. simpl.
    rewrite List.filter_app, length_app. reflexivity.
  - intros w Hw. unfold start_recording. rewrite Hw. reflexivity.
Qed.

Lemma C3_start_guard_is_in_the_window_witness :
  start_recording (worker_run (start_recording window))
  = worker_run (start_recording window).
Proof.
  apply (proj2 C3_start_guard_is_in_the_window). reflexivity.
Defined.

(** [start] on a paused pipeline resumes it and adds two workers. *)
Lemma C3_start_while_paused_changes_state :
  (let s := run [CallStart; CallPause] boot in
   is_running (pipe s) = true /\ is_paused (pipe s) = true /\
   workers s = 2%nat /\
   is_paused (pipe (start s)) = false /\ workers (start s) = 4%nat) /\
  ~ start_is_noop.
Proof.
  split; [vm_compute; repeat split|].
  intros H.
  specialize (H (run [CallStart; CallPause] boot) eq_refl).
  apply (f_equal (fun s => is_paused (pipe s))) in H.
  vm_compute in H. discriminate H.
Qed.

(** ** The live path: one recognition cycle *)

Section Cycle.

Lemma join_merge (a b : str) (r : list str) :
  join space ((a ++ space ++ b) :: r) = a ++ space ++ join space (b :: r).
Proof.
  destruct r as [|c r]; [reflexivity|].
  change (join space ((a ++ space ++ b) :: c :: r))
    with ((a ++ space ++ b) ++ space ++ join space (c :: r)).
  change (join space (b :: c :: r)) with (b ++ space ++ join space (c :: r)).
  rewrite <- !app_assoc. reflexivity.
Qed.

(** Appending to a non-empty buffer is joining. *)
Lemma append_all_nonempty (l : list str) (cur : str) :
  truthy cur = true ->
  fold_left append_text l cur = join space (cur :: l).
Proof.
  revert cur. induction l as [|t l IH]; intros cur Hcur; [reflexivity|].
  simpl fold_left. unfold append_text at 2. rewrite Hcur.
  rewrite IH by (apply truthy_app_l; exact Hcur).
  apply join_merge.
Qed.

(** Appending to the empty buffer skips the empty texts at the front. *)
Lemma append_all_empty (l : list str) :
  fold_left append_text l [] = join space (drop_leading_empty l).
Proof.
  induction l as [|t l IH]; [reflexivity|].
  destruct t as [|c t].
  - exact IH.
  - simpl fold_left. change (append_text [] (c :: t)) with (c :: t).
    apply append_all_nonempty. reflexivity.
Qed.

Lemma drop_leading_empty_id (l : list str) :
  Forall (fun t => truthy t = true) l -> drop_leading_empty l = l.
Proof.
  intros H. destruct H as [|t l Ht _]; [reflexivity|].
  destruct t; [discriminate Ht | reflexivity].
Qed.

(** A cycle in which both services answer, the text being non-empty. *)
Lemma success_cycle (frames : list bytes) (text english : str)
    (p : TranscriptionPipeline) :
  truthy text = true ->
  let b := append_text (current_bengali_text p) text in
  let e := append_text (current_english_text p) english in
  recognition_cycle frames (Recognized text) (Translated english) p
  = (set_english e (set_bengali b p),
     [Recognize frames; SetBengali b]
       ++ notify (on_bengali_update p) (BengaliUpdate b)
       ++ [Translate text; SetEnglish e]
       ++ notify (on_english_update p) (EnglishUpdate e)).
Proof.
  intros Ht. unfold recognition_cycle. rewrite Ht. reflexivity.
Qed.

Lemma run_success_texts (cycles : list (list bytes * str * str))
    (p : TranscriptionPipeline) (evs : list event) :
  Forall (fun c => truthy (recognized_of c) = true) cycles ->
  let r :=
    fold_left
      (fun acc c =>
         let '(frames, rc, tr) := c in
         let '(p', evs) := recognition_cycle frames rc tr (fst acc) in
         (p', snd acc ++ evs))
      (map success cycles) (p, evs) in
  current_bengali_text (fst r)
    = fold_left append_text (map recognized_of cycles) (current_bengali_text p) /\
  current_english_text (fst r)
    = fold_left append_text (map translated_of cycles) (current_english_text p).
Proof.
  revert p evs. induction cycles as [|[[frames text] english] cycles IH];
    intros p evs Hall; [split; reflexivity|].
  inversion Hall as [|c l Hc Hl]; subst.
  unfold recognized_of in Hc. simpl in Hc.
  cbn [map success fold_left fst snd].
  rewrite (success_cycle frames text english p Hc).
  cbv zeta. specialize (IH
    (set_english (append_text (current_english_text p) english)
       (set_bengali (append_text (current_bengali_text p) text) p))).
  apply IH. exact Hl.
Qed.

(** The live fallback when the text is no key of the dictionary. *)
Lemma translate_live_missing (text : str) (p : TranscriptionPipeline) :
  bengali_medical_terms p !! text = None ->
  translate_live text TranslationError p = (p, [Translate text]).
Proof. intros H. unfold translate_live. rewrite H. reflexivity. Qed.

End Cycle.

(** C2: over any run of cycles in which recognition gives a non-empty text
    and translation answers, starting from empty transcripts, the source
    text is the recognized texts joined by single spaces, and the target
    text is the translated texts joined by single spaces once the empty
    translations at the front are dropped, hence all of them when none
    is empty.  In each such cycle the source text is written once and
    notified, then the translation is asked, then the target text is
    written once and notified.  "one", "two", "three" translated as
    "ek", "dui", "tin" give "one two three" and "ek dui tin". *)
Theorem C2_live_append :
  (forall (cycles : list (list bytes * str * str)) (p : TranscriptionPipeline),
     current_bengali_text p = [] -> current_english_text p = [] ->
     Forall (fun c => truthy (recognized_of c) = true) cycles ->
     let p' := fst (run_cycles (map success cycles) p) in
     current_bengali_text p' = join space (map recognized_of cycles) /\
     current_english_text p'
       = join space (drop_leading_empty (map translated_of cycles)) /\
     (Forall (fun c => truthy (translated_of c) = true) cycles ->
      current_english_text p' = join space (map translated_of cycles))) /\
  (forall (frames : list bytes) (text english : str) (p : TranscriptionPipeline),
     truthy text = true ->
     let b := append_text (current_bengali_text p) text in
     let e := append_text (current_english_text p) english in
     recognition_cycle frames (Recognized text) (Translated english) p
     = (set_english e (set_bengali b p),
        [Recognize frames; SetBengali b]
          ++ notify (on_bengali_update p) (BengaliUpdate b)
          ++ [Translate text; SetEnglish e]
          ++ notify (on_english_update p) (EnglishUpdate e))) /\
  (let p' :=
     fst (run_cycles
            (map success
               [([], of_string "one", of_string "ek");
                ([], of_string "two", of_string "dui");
                ([], of_string "three", of_string "tin")])
            init) in
   current_bengali_text p' = of_string "one two three" /\
   current_english_text p' = of_string "ek dui tin").
Proof.
  split; [|split].
  - intros cycles p Hb He Hall p'.
    destruct (run_success_texts cycles p [] Hall) as [Hsrc Htgt].
    fold (run_cycles (map success cycles) p) in Hsrc, Htgt.
    fold p' in Hsrc, Htgt.
    rewrite Hb in Hsrc. rewrite He in Htgt.
    rewrite append_all_empty in Hsrc, Htgt.
    assert (Hrec : Forall (fun t => truthy t = true) (map recognized_of cycles)).
    { clear -Hall. induction Hall; simpl; constructor; assumption. }
    rewrite (drop_leading_empty_id _ Hrec) in Hsrc.
    split; [exact Hsrc|]. split; [exact Htgt|].
    intros Htr. rewrite Htgt. f_equal. apply drop_leading_empty_id.
    clear -Htr. induction Htr; simpl; constructor; assumption.
  - intros frames text english p Ht. apply success_cycle. exact Ht.
  - vm_compute. split; reflexivity.
Qed.

Lemma C2_live_append_witness :
  let cycles :=
    [([] : list bytes, of_string "one", of_string "ek");
     ([], of_string "two", of_string "dui")] in
  let p' := fst (run_cycles (map success cycles) init) in
  current_bengali_text p' = join space (map recognized_of cycles) /\
  current_english_text p'
    = join space (drop_leading_empty (map translated_of cycles)) /\
  (Forall (fun c => truthy (translated_of c) = true) cycles ->
   current_english_text p' = join space (map translated_of cycles)).
Proof.
  apply (proj1 C2_live_append); [reflexivity | reflexivity |].
  repeat constructor.
Defined.

(** An empty translation in the first cycle: the target text then lacks
    the separator a join would put before the second translation. *)
Lemma C2_empty_translation_breaks_join :
  (let cycles :=
     [([] : list bytes, of_string "one", of_string "");
      ([], of_string "two", of_string "dui")] in
   let p' := fst (run_cycles (map success cycles) init) in
   current_english_text p' = of_string "dui" /\
   join space (map translated_of cycles) = of_string " dui") /\
  ~ append_invariant.
Proof.
  split; [vm_compute; split; reflexivity|].
  intros H.
  specialize (H [([], of_string "one", of_string "");
                 ([], of_string "two", of_string "dui")] init
                eq_refl eq_refl).
  destruct H as [_ H]; [repeat constructor|].
  vm_compute in H. discriminate H.
Qed.



(** ** The window assembler *)

Section Window.





(** The three ways through an iteration. *)
Lemma processing_iteration_cases (written : bool) (current_time : float)
    (rc : recognition) (tr : translation) (p : TranscriptionPipeline)
    (l : ProcLocal) :
  let buf := audio_buffer l ++ map fst (audio_queue p) in
  let r := processing_iteration written current_time rc tr p l in
  let c := recognition_cycle buf rc tr (set_queue [] p) in
  (window_due buf current_time (last_process_time l) = true /\
   written = true /\
   r = (fst c, Some (mkProcLocal [] current_time),
        WriteWav buf :: snd c ++ [Unlink; Sleep])) \/
  (window_due buf current_time (last_process_time l) = true /\
   written = false /\ r = (set_queue [] p, None, [])) \/
  (window_due buf current_time (last_process_time l) = false /\
   r = (set_queue [] p, Some (mkProcLocal buf (last_process_time l)),
        [Sleep])).
Proof.
  intros buf r c. subst r c. unfold processing_iteration. fold buf.
  destruct (window_due buf current_time (last_process_time l)).
  - destruct written.
    + left. destruct (recognition_cycle buf rc tr (set_queue [] p)).
      repeat split.
    + right. left. repeat split.
  - right. right. repeat split.
Qed.



End Window.






(** ** The fallback dictionary is never written *)

Section Dictionary.

Lemma recognition_cycle_terms (frames : list bytes) (rc : recognition)
    (tr : translation) (p : TranscriptionPipeline) :
  bengali_medical_terms (fst (recognition_cycle frames rc tr p))
  = bengali_medical_terms p.
Proof.
  unfold recognition_cycle, translate_live.
  destruct rc as [text| | |]; try reflexivity.
  destruct (truthy text); [|reflexivity].
  destruct tr as [english|];
    [|destruct (bengali_medical_terms (set_bengali _ p) !! text)];
    reflexivity.
Qed.

Lemma processing_iteration_terms (written : bool) (current_time : float)
    (rc : recognition) (tr : translation) (p : TranscriptionPipeline)
    (l : ProcLocal) :
  bengali_medical_terms
    (fst (fst (processing_iteration written current_time rc tr p l)))
  = bengali_medical_terms p.
Proof.
  destruct (processing_iteration_cases written current_time rc tr p l)
    as [(_ & _ & Hr)|[(_ & _ & Hr)|(_ & Hr)]]; rewrite Hr;
    [|reflexivity|reflexivity].
  cbn [fst]. rewrite recognition_cycle_terms. reflexivity.
Qed.

Lemma worker_step_terms (written : bool) (e : env)
    (p : TranscriptionPipeline) (t : thread) :
  bengali_medical_terms (fst (fst (worker_step written e p t)))
  = bengali_medical_terms p.
Proof.
  destruct t as [|pc| |l|]; simpl; try reflexivity.
  - destruct pc; simpl; try reflexivity.
    + destruct (is_running p); reflexivity.
    + destruct (is_paused p); reflexivity.
    + destruct (mic e) as [data|]; [|reflexivity].
      destruct (audio_level data); reflexivity.
  - destruct (is_running p); [|reflexivity].
    pose proof (processing_iteration_terms written (now e) (heard e)
                  (rendered e) p l) as H.
    destruct (processing_iteration _ _ _ _ p l) as [[p' l'] evs]. exact H.
Qed.

Lemma advance_terms (written : bool) (tid : nat) (e : env) (s : System) :
  bengali_medical_terms (pipe (advance written tid e s))
  = bengali_medical_terms (pipe s).
Proof.
  unfold advance. destruct (threads s !! tid) as [t|]; [|reflexivity].
  pose proof (worker_step_terms written e (pipe s) t) as H.
  destruct (worker_step written e (pipe s) t) as [[p' t'] evs]. exact H.
Qed.

Lemma step_terms (a : action) (s : System) :
  bengali_medical_terms (pipe (step a s)) = bengali_medical_terms (pipe s).
Proof.
  destruct a as [| | | | |text tr|tid e|tid e]; try reflexivity;
    apply advance_terms.
Qed.

Lemma run_terms (sched : list action) (s : System) :
  bengali_medical_terms (pipe (run sched s)) = bengali_medical_terms (pipe s).
Proof.
  revert s. induction sched as [|a sched IH]; intros s; [reflexivity|].
  simpl. unfold run in IH. rewrite IH. apply step_terms.
Qed.

(** The handlers of the editors. *)
Lemma handlers_terms (tr : translation) (w : MainWindow) :
  let d := fun v => bengali_medical_terms (pipe (process v)) in
  d (start_recording w) = d w /\ d (worker_run w) = d w /\
  d (on_bengali_edited w) = d w /\ d (delayed_translation tr w) = d w.
Proof.
  intros d. subst d. repeat split.
  - unfold start_recording. destruct (worker_active w); reflexivity.
  - unfold worker_run. destruct (worker w); reflexivity.
  - unfold on_bengali_edited.
    destruct (worker_active w); [reflexivity|].
    destruct (truthy (bengali_text w)); reflexivity.
  - unfold delayed_translation. destruct (timers w); reflexivity.
Qed.

Lemma acts_terms (gs : list gesture) (w : MainWindow) :
  bengali_medical_terms (pipe (process (acts gs w)))
  = bengali_medical_terms (pipe (process w)).
Proof.
  revert w. induction gs as [|g gs IH]; intros w; [reflexivity|].
  unfold acts in *. cbn [fold_left]. rewrite IH.
  destruct g as [text|tr]; cbn [act].
  - rewrite (proj1 (proj2 (proj2 (handlers_terms TranslationError _)))).
    reflexivity.
  - apply (proj2 (proj2 (proj2 (handlers_terms tr w)))).
Qed.

(** The handlers of the buttons. *)
Lemma press_terms (k : click) (c c' : Panel) :
  press k c = Some c' ->
  bengali_medical_terms (pipe (process (win c')))
  = bengali_medical_terms (pipe (process (win c))).
Proof.
  destruct k as [| |sched|tid e]; cbn [press].
  - intros H. injection H as <-.
    destruct (worker_active (win c)) eqn:Ha; [reflexivity|].
    unfold begin_run, click_start. rewrite Ha. cbn [win].
    unfold start_recording. rewrite Ha. cbn [worker win]. reflexivity.
  - intros H. injection H as <-. unfold toggle_pause.
    destruct (negb (worker_active (win c))); [reflexivity|].
    destruct (pause_button c); reflexivity.
  - unfold stop_recording.
    destruct (negb (worker_active (win c)));
      [intros H; injection H as <-; reflexivity|].
    destruct (worker (win c)) as [k|];
      [|intros H; injection H as <-; reflexivity].
    destruct (running k); [|discriminate].
    intros H. injection H as <-. cbn [win process pipe stop_return fst].
    change (bengali_medical_terms (set_threads None None ?q))
      with (bengali_medical_terms q).
    rewrite run_terms. reflexivity.
  - intros H. injection H as <-.
    exact (step_terms (Run tid e) (process (win c))).
Qed.

Lemma presses_terms (ks : list click) (c c' : Panel) :
  presses ks c = Some c' ->
  bengali_medical_terms (pipe (process (win c')))
  = bengali_medical_terms (pipe (process (win c))).
Proof.
  revert c. induction ks as [|k ks IH]; intros c; cbn [presses].
  - intros H. injection H as <-. reflexivity.
  - destruct (press k c) as [c1|] eqn:Hk; [|discriminate].
    intros H. rewrite (IH c1 H). apply (press_terms k c c1 Hk).
Qed.

(** With the key missing, a failed translation adds nothing. *)
Lemma failed_translation_silent (frames : list bytes) (rc : recognition)
    (p : TranscriptionPipeline) :
  (forall text : str, bengali_medical_terms p !! text = None) ->
  let r := recognition_cycle frames rc TranslationError p in
  current_english_text (fst r) = current_english_text p /\
  forall s : str,
    ~ In (SetEnglish s) (snd r) /\ ~ In (EnglishUpdate s) (snd r).
Proof.
  intros Hd r. subst r. unfold recognition_cycle.
  assert (Hnone : forall (s : str),
            ~ In (SetEnglish s) [Recognize frames] /\
            ~ In (EnglishUpdate s) [Recognize frames]).
  { intros s. split; intros [H|[]]; discriminate H. }
  destruct rc as [text| | |]; try (split; [reflexivity | exact Hnone]).
  destruct (truthy text); [|split; [reflexivity | exact Hnone]].
  rewrite translate_live_missing by apply Hd.
  split; [reflexivity|]. intros s. cbn [snd].
  unfold notify. destruct (on_bengali_update p); cbn [app];
    split; intros H; repeat (destruct H as [H|H]; [discriminate H|]);
    destruct H.
Qed.

End Dictionary.

(** C10: the dictionary is empty at construction and no operation of the
    pipeline, step of a worker, handler of an editor or handler of a
    button writes it, so it is empty in every state the program and its
    window reach.  In every pipeline whose dictionary is empty, whatever
    its callbacks and texts, a failed translation leaves the target text
    of a live cycle as it was, writing nothing and calling nobody back
    about it; and a manual edit stores the text as source text and
    stores and returns the text split on whitespace and joined with
    single spaces: for a text that is whitespace, then words each
    followed by whitespace, then maybe a last word, that is those words
    with one space between them. *)
Theorem C10_fallback_dictionary_is_empty :
  bengali_medical_terms init = ∅ /\
  (forall (a : action) (s : System),
     bengali_medical_terms (pipe (step a s)) = bengali_medical_terms (pipe s)) /\
  (forall (tr : translation) (w : MainWindow),
     let d := fun v => bengali_medical_terms (pipe (process v)) in
     d (start_recording w) = d w /\ d (worker_run w) = d w /\
     d (on_bengali_edited w) = d w /\ d (delayed_translation tr w) = d w) /\
  (forall (k : click) (c c' : Panel),
     press k c = Some c' ->
     bengali_medical_terms (pipe (process (win c')))
     = bengali_medical_terms (pipe (process (win c)))) /\
  (forall sched : list action,
     bengali_medical_terms (pipe (run sched boot)) = ∅) /\
  (forall gs : list gesture,
     bengali_medical_terms (pipe (process (acts gs window))) = ∅) /\
  (forall (ks : list click) (c : Panel),
     presses ks panel = Some c ->
     bengali_medical_terms (pipe (process (win c))) = ∅) /\
  (forall (p : TranscriptionPipeline) (frames : list bytes)
          (rc : recognition),
     bengali_medical_terms p = ∅ ->
     let r := recognition_cycle frames rc TranslationError p in
     current_english_text (fst r) = current_english_text p /\
     forall s : str,
       ~ In (SetEnglish s) (snd r) /\ ~ In (EnglishUpdate s) (snd r)) /\
  (forall (p : TranscriptionPipeline) (text : str),
     bengali_medical_terms p = ∅ ->
     let r := update_bengali_text text TranslationError p in
     snd r = join space (split text) /\
     current_english_text (fst r) = join space (split text) /\
     current_bengali_text (fst r) = text) /\
  (forall (p : TranscriptionPipeline) (lead tail : str)
          (ws : list (str * str)),
     bengali_medical_terms p = ∅ ->
     forallb isspace lead = true ->
     Forall word_and_gap ws ->
     existsb isspace tail = false ->
     snd (update_bengali_text (lead ++ spaced ws ++ tail) TranslationError p)
     = join space (map fst ws ++ (if truthy tail then [tail] else []))).
Proof.
  assert (Hedit : forall (p : TranscriptionPipeline) (text : str),
            bengali_medical_terms p = ∅ ->
            snd (update_bengali_text text TranslationError p)
            = join space (split text)).
  { intros p text Hd. cbn [update_bengali_text snd].
    change (bengali_medical_terms (set_bengali text p))
      with (bengali_medical_terms p).
    rewrite Hd, fallback_words_map, map_replace_token_empty. reflexivity. }
  refine (conj eq_refl (conj step_terms (conj handlers_terms
            (conj press_terms (conj _ (conj _ (conj _ (conj _
              (conj _ _))))))))).
  - intros sched. rewrite run_terms. reflexivity.
  - intros gs. rewrite acts_terms. reflexivity.
  - intros ks c H. rewrite (presses_terms ks panel c H). reflexivity.
  - intros p frames rc Hd. apply failed_translation_silent.
    intros text. rewrite Hd. apply lookup_empty.
  - intros p text Hd r. subst r.
    split; [apply Hedit; exact Hd|].
    split; [|reflexivity].
    exact (Hedit p text Hd).
  - intros p lead tail ws Hd Hl Hws Ht. rewrite Hedit by exact Hd.
    rewrite split_spaced by assumption. reflexivity.
Qed.

Lemma C10_fallback_dictionary_is_empty_witness :
  let p := set_english pain (pipe (process (start_recording window))) in
  on_bengali_update p = true /\ on_english_update p = true /\
  current_english_text
    (fst (recognition_cycle [] (Recognized byathaa) TranslationError p))
  = pain /\
  snd (update_bengali_text
         ([9; 32] ++ spaced [(of_string "jor", [32; 10; 32])]
            ++ of_string "kashi")%N
         TranslationError p)
  = of_string "jor kashi".
Proof.
  intros p. split; [reflexivity|]. split; [reflexivity|]. split.
  - exact (proj1 (proj1 (proj2 (proj2 (proj2 (proj2 (proj2 (proj2 (proj2
             C10_fallback_dictionary_is_empty)))))))
             p [] (Recognized byathaa) eq_refl)).
  - apply (proj2 (proj2 (proj2 (proj2 (proj2 (proj2 (proj2 (proj2 (proj2
             C10_fallback_dictionary_is_empty))))))))
             p [9; 32]%N (of_string "kashi")
             [(of_string "jor", [32; 10; 32]%N)] eq_refl eq_refl).
    + repeat constructor.
    + reflexivity.
Defined.

(** ** Pausing *)

Section Pause.

Lemma count_app (f : event -> bool) (a b : list event) :
  count f (a ++ b) = (count f a + count f b)%nat.
Proof. unfold count. rewrite List.filter_app. apply length_app. Qed.

(** Replacing one thread moves the census by the weights. *)
Lemma census_insert (f : thread -> bool) (ts : list thread) (i : nat)
    (t t' : thread) :
  ts !! i = Some t ->
  (census f (<[i := t']> ts) + weight f t = census f ts + weight f t')%nat.
Proof.
  revert i. induction ts as [|u ts IH]; intros i H; [discriminate H|].
  destruct i as [|i]; simpl in *.
  - injection H as ->. lia.
  - specialize (IH i H). lia.
Qed.





End Pause.




(** ** The level meter *)

Section LevelBounds.

Lemma u8_range (b : Byte.byte) : 0 <= u8 b < 256.
Proof. destruct b; vm_compute; split; congruence. Qed.

Lemma int16_le_range (lo hi : Byte.byte) : -32768 <= int16_le lo hi <= 32767.
Proof.
  unfold int16_le. pose proof (u8_range lo). pose proof (u8_range hi).
  destruct (u8 lo + 256 * u8 hi <? 32768) eqn:E;
    [apply Z.ltb_lt in E | apply Z.ltb_ge in E]; lia.
Qed.

Lemma frombuffer_range (data : bytes) :
  forall a, frombuffer_int16 data = Some a ->
  Forall (fun x => -32768 <= x <= 32767) a.
Proof.
  induction data as [data IH] using (well_founded_induction
    (well_founded_ltof _ (@length Byte.byte))).
  intros a Ha. destruct data as [|lo [|hi rest]]; simpl in Ha.
  - injection Ha as <-. constructor.
  - discriminate Ha.
  - destruct (frombuffer_int16 rest) as [a'|] eqn:E; [|discriminate Ha].
    injection Ha as <-. constructor; [apply int16_le_range|].
    apply (IH rest); [unfold ltof; simpl; lia | exact E].
Qed.

(** The wrapped absolute value: the minimum stays the minimum. *)
Lemma wrap16_abs (x : Z) :
  -32768 <= x <= 32767 ->
  (x = -32768 /\ wrap16 (Z.abs x) = -32768) \/
  (x <> -32768 /\ wrap16 (Z.abs x) = Z.abs x /\ 0 <= Z.abs x <= 32767).
Proof.
  intros Hx. destruct (Z.eq_dec x (-32768)) as [->|Hne].
  - left. split; reflexivity.
  - right. split; [exact Hne|]. unfold wrap16.
    assert (0 <= Z.abs x <= 32767) by lia.
    split; [|assumption].
    rewrite Z.mod_small by lia. lia.
Qed.

Lemma sum_np_abs_bounds (a : list Z) :
  Forall (fun x => -32768 <= x <= 32767) a ->
  -32768 * Z.of_nat (length a) <= sum (np_abs a) <= 32767 * Z.of_nat (length a) /\
  (Forall (fun x => x <> -32768) a -> 0 <= sum (np_abs a)).
Proof.
  induction 1 as [|x a Hx Ha IH]; [simpl; split; [lia | intros _; lia]|].
  destruct IH as [IH1 IH2].
  change (sum (np_abs (x :: a))) with (wrap16 (Z.abs x) + sum (np_abs a)).
  change (length (x :: a)) with (S (length a)). rewrite Nat2Z.inj_succ.
  split.
  - destruct (wrap16_abs x Hx) as [[_ E]|[_ [E R]]]; rewrite E; lia.
  - intros Hall. inversion Hall as [|y l Hy Hl]; subst.
    specialize (IH2 Hl).
    destruct (wrap16_abs x Hx) as [[E _]|[_ [E R]]]; [contradiction|].
    rewrite E. lia.
Qed.

(** For a buffer of whole samples that is not empty the level is a number
    between -1 and 1, and it is not negative when no sample is -32768. *)
Lemma audio_level_bounds (data : bytes) (a : list Z) :
  frombuffer_int16 data = Some a ->
  a <> [] ->
  exists q, audio_level data = Some (Finite q) /\
    (-1 <= q /\ q <= 1)%Q /\
    (Forall (fun x => x <> -32768) a -> in_unit_interval (Finite q)).
Proof.
  intros Hfb Hne. unfold audio_level. rewrite Hfb.
  pose proof (sum_np_abs_bounds a (frombuffer_range data a Hfb)) as [Hb Hpos].
  destruct a as [|x a]; [congruence|].
  set (n := length (x :: a)) in *.
  assert (Hn : Z.pos (Pos.of_nat n) = Z.of_nat n).
  { subst n. simpl length. rewrite <- Pos.of_nat_succ.
    rewrite Zpos_P_of_succ_nat, Nat2Z.inj_succ. reflexivity. }
  exists ((sum (np_abs (x :: a)) # Pos.of_nat n) / 32768)%Q.
  split.
  { unfold mean, div_32768. change (np_abs (x :: a)) with (wrap16 (Z.abs x) :: np_abs a) at 1.
    cbn iota. do 3 f_equal. unfold np_abs at 2. simpl length.
    rewrite length_map. reflexivity. }
  assert (Hle : forall k : Z,
            (k * 32768 * Z.of_nat n <= sum (np_abs (x :: a)) ->
             (k # 1 <= (sum (np_abs (x :: a)) # Pos.of_nat n) / 32768)%Q) /\
            (sum (np_abs (x :: a)) <= k * 32768 * Z.of_nat n ->
             ((sum (np_abs (x :: a)) # Pos.of_nat n) / 32768 <= k # 1)%Q)).
  { intros k. generalize (sum (np_abs (x :: a))). intros total.
    unfold Qle, Qdiv, Qmult, Qinv. simpl Qnum. simpl Qden.
    rewrite Pos2Z.inj_mul, Hn. split; intros H; lia. }
  split; [split|].
  - apply (proj1 (Hle (-1))). lia.
  - apply (proj2 (Hle 1)). lia.
  - intros Hall. specialize (Hpos Hall). split.
    + apply (proj1 (Hle 0)). lia.
    + apply (proj2 (Hle 1)). lia.
Qed.

End LevelBounds.

(** C9: a frame of 1024 samples that are all -32768.  The wrapped
    absolute value of each sample is -32768 again, their mean is -32768,
    and the level is -1, outside the interval from 0 to 1. *)
Theorem C9_level_of_minimum_frame :
  length loudest_frame = 2048%nat /\
  frombuffer_int16 loudest_frame = Some (repeat (-32768) 1024) /\
  np_abs (repeat (-32768) 1024) = repeat (-32768) 1024 /\
  exists q, audio_level loudest_frame = Some (Finite q) /\
    (q == -1)%Q /\ ~ in_unit_interval (Finite q).
Proof.
  split; [reflexivity|]. split; [vm_compute; reflexivity|].
  split; [vm_compute; reflexivity|].
  exists (-33554432 # 33554432)%Q.
  split; [vm_compute; reflexivity|].
  split; [reflexivity|].
  intros [H _]. vm_compute in H. apply H. reflexivity.
Qed.

(** ** What the workers leave alone, and what only grows *)

Section Growth.

Lemma append_text_prefix (cur text : str) : cur `prefix_of` append_text cur text.
Proof.
  unfold append_text. destruct cur as [|c cur]; simpl.
  - apply prefix_nil.
  - exists (space ++ text). reflexivity.
Qed.

Lemma append_text_longer (cur text : str) :
  truthy text = true -> (length cur < length (append_text cur text))%nat.
Proof.
  intros Ht. unfold append_text. destruct text as [|c text]; [discriminate Ht|].
  destruct cur as [|k cur]; simpl; [lia|].
  rewrite length_app. simpl. lia.
Qed.

(** One cycle: what it keeps and how the transcripts move. *)
Lemma recognition_cycle_frame (frames : list bytes) (rc : recognition)
    (tr : translation) (p : TranscriptionPipeline) :
  let p' := fst (recognition_cycle frames rc tr p) in
  is_running p' = is_running p /\ is_paused p' = is_paused p /\
  audio_queue p' = audio_queue p /\
  on_bengali_update p' = on_bengali_update p /\
  on_english_update p' = on_english_update p /\
  recording_thread p' = recording_thread p /\
  processing_thread p' = processing_thread p /\
  current_bengali_text p `prefix_of` current_bengali_text p' /\
  current_english_text p `prefix_of` current_english_text p'.
Proof.
  unfold recognition_cycle, translate_live.
  destruct rc as [text| | |];
    try (cbv zeta; simpl; repeat split; reflexivity).
  destruct (truthy text); [|cbv zeta; simpl; repeat split; reflexivity].
  destruct tr as [english|];
    [|destruct (bengali_medical_terms (set_bengali _ p) !! text) as [english|]];
    cbv zeta; cbn [fst];
    (split; [reflexivity|]); (split; [reflexivity|]); (split; [reflexivity|]);
    (split; [reflexivity|]); (split; [reflexivity|]); (split; [reflexivity|]);
    (split; [reflexivity|]);
    (split; [apply append_text_prefix|]);
    first [apply append_text_prefix
          | exists (space ++ english); reflexivity
          | reflexivity].
Qed.

Lemma recognition_cycle_events (frames : list bytes) (rc : recognition)
    (tr : translation) (p : TranscriptionPipeline) :
  let evs := snd (recognition_cycle frames rc tr p) in
  (count is_set_english evs <= count is_set_bengali evs)%nat /\
  (count is_set_bengali evs <= 1)%nat /\
  frames_put evs = [] /\ frames_windowed evs = [].
Proof.
  unfold recognition_cycle, translate_live.
  destruct rc as [text| | |];
    try (cbv zeta; unfold count; simpl; repeat split; lia).
  destruct (truthy text); [|cbv zeta; unfold count; simpl; repeat split; lia].
  destruct tr as [english|];
    [|destruct (bengali_medical_terms (set_bengali _ p) !! text) as [english|]];
    cbn [current_english_text on_english_update set_bengali];
    destruct (on_bengali_update p), (on_english_update p);
    cbv zeta; unfold count; simpl; repeat split; lia.
Qed.

Lemma frames_put_app (a b : list event) :
  frames_put (a ++ b) = frames_put a ++ frames_put b.
Proof.
  induction a as [|e a IH]; [reflexivity|].
  destruct e; simpl; rewrite IH; reflexivity.
Qed.

Lemma frames_windowed_app (a b : list event) :
  frames_windowed (a ++ b) = frames_windowed a ++ frames_windowed b.
Proof.
  induction a as [|e a IH]; [reflexivity|].
  destruct e; simpl; rewrite IH; try reflexivity.
  apply app_assoc.
Qed.

(** A step outside the processing loop changes at most the queue and
    writes no transcript. *)
Lemma idle_step (written : bool) (e : env) (p : TranscriptionPipeline)
    (t : thread) :
  (forall l, t <> Proc l) ->
  (fst (fst (worker_step written e p t)) = p \/
   exists q, fst (fst (worker_step written e p t)) = set_queue q p) /\
  count is_set_english (snd (worker_step written e p t)) = 0%nat /\
  count is_set_bengali (snd (worker_step written e p t)) = 0%nat /\
  count is_recognize (snd (worker_step written e p t)) = 0%nat /\
  frames_windowed (snd (worker_step written e p t)) = [].
Proof.
  intros Hnp. destruct t as [|pc| |l|]; simpl.
  - split; [left|]; repeat split.
  - destruct pc as [| | |data level|]; simpl.
    + destruct (is_running p); (split; [left|]); repeat split.
    + destruct (is_paused p); (split; [left|]); repeat split.
    + destruct (mic e) as [data|]; [destruct (audio_level data)|];
        (split; [left|]); repeat split.
    + split; [right; eexists; reflexivity|]. repeat split.
    + split; [left|]; repeat split.
  - split; [left|]; repeat split.
  - exfalso. apply (Hnp l). reflexivity.
  - split; [left|]; repeat split.
Qed.

(** One iteration: flags, callbacks and handles stay, the transcripts
    only grow, and the target text is written no more often than the
    source text. *)
Lemma processing_iteration_shape (written : bool) (current_time : float)
    (rc : recognition) (tr : translation) (p : TranscriptionPipeline)
    (l : ProcLocal) :
  let r := processing_iteration written current_time rc tr p l in
  let p' := fst (fst r) in
  is_running p' = is_running p /\ is_paused p' = is_paused p /\
  on_bengali_update p' = on_bengali_update p /\
  on_english_update p' = on_english_update p /\
  recording_thread p' = recording_thread p /\
  processing_thread p' = processing_thread p /\
  current_bengali_text p `prefix_of` current_bengali_text p' /\
  current_english_text p `prefix_of` current_english_text p' /\
  (count is_set_english (snd r) <= count is_set_bengali (snd r))%nat.
Proof.
  intros r p'. subst p'.
  destruct (processing_iteration_cases written current_time rc tr p l)
    as [(_ & _ & Hr)|[(_ & _ & Hr)|(_ & Hr)]]; fold r in Hr; rewrite Hr;
    [|cbn [fst snd]; repeat split; reflexivity
     |cbn [fst snd]; repeat split; reflexivity].
  pose proof (recognition_cycle_frame
                (audio_buffer l ++ map fst (audio_queue p))
                rc tr (set_queue [] p))
    as (H1 & H2 & _ & H4 & H5 & H6 & H7 & H8 & H9).
  pose proof (recognition_cycle_events
                (audio_buffer l ++ map fst (audio_queue p))
                rc tr (set_queue [] p))
    as (H10 & _).
  cbn [fst snd].
  repeat split; try assumption.
  change (WriteWav ?b :: ?x ++ ?y) with ([WriteWav b] ++ x ++ y).
  rewrite !count_app. unfold count at 1 3 4 6. simpl. lia.
Qed.

(** One step of any thread: the same. *)
Lemma worker_step_shape (written : bool) (e : env)
    (p : TranscriptionPipeline) (t : thread) :
  let p' := fst (fst (worker_step written e p t)) in
  let evs := snd (worker_step written e p t) in
  is_running p' = is_running p /\ is_paused p' = is_paused p /\
  on_bengali_update p' = on_bengali_update p /\
  on_english_update p' = on_english_update p /\
  recording_thread p' = recording_thread p /\
  processing_thread p' = processing_thread p /\
  current_bengali_text p `prefix_of` current_bengali_text p' /\
  current_english_text p `prefix_of` current_english_text p' /\
  (count is_set_english evs <= count is_set_bengali evs)%nat.
Proof.
  cbv zeta.
  assert (Hproc : (exists l, t = Proc l /\ is_running p = true) \/
                  (forall l, t <> Proc l) \/
                  (exists l, t = Proc l /\ is_running p = false)).
  { destruct t as [|pc| |l|]; try (right; left; intros l0; discriminate).
    destruct (is_running p); [left | right; right]; exists l; split; reflexivity. }
  destruct Hproc as [(l & -> & Hr) | [Hnp | (l & -> & Hr)]].
  - cbn [worker_step].
    pose proof (processing_iteration_shape written (now e) (heard e)
                  (rendered e) p l) as H.
    destruct (processing_iteration written (now e) (heard e) (rendered e) p l)
      as [[p' o] evs].
    cbv zeta in H. cbn [fst snd] in H.
    destruct (is_running p); [|discriminate Hr].
    cbn [fst snd]. exact H.
  - destruct (idle_step written e p t Hnp) as ([-> | [q ->]] & Hc & _);
      rewrite Hc; repeat split; try reflexivity; try lia.
  - cbn [worker_step]. rewrite Hr. cbn [fst snd].
    repeat split; try reflexivity; try exact Hr;
      try (unfold count; simpl; lia).
Qed.

End Growth.

Section Runs.

Lemma run_snoc (sched : list action) (a : action) (s : System) :
  run (sched ++ [a]) s = step a (run sched s).
Proof. unfold run. rewrite fold_left_app. reflexivity. Qed.

Lemma run_app (early later : list action) (s : System) :
  run (early ++ later) s = run later (run early s).
Proof. unfold run. apply fold_left_app. Qed.

Lemma advance_shape (written : bool) (tid : nat) (e : env) (s : System) :
  let s' := advance written tid e s in
  is_running (pipe s') = is_running (pipe s) /\
  is_paused (pipe s') = is_paused (pipe s) /\
  on_bengali_update (pipe s') = on_bengali_update (pipe s) /\
  on_english_update (pipe s') = on_english_update (pipe s) /\
  recording_thread (pipe s') = recording_thread (pipe s) /\
  processing_thread (pipe s') = processing_thread (pipe s) /\
  current_bengali_text (pipe s) `prefix_of` current_bengali_text (pipe s') /\
  current_english_text (pipe s) `prefix_of` current_english_text (pipe s') /\
  (count is_set_english (trace s') + count is_set_bengali (trace s)
   <= count is_set_bengali (trace s') + count is_set_english (trace s))%nat /\
  length (threads s') = length (threads s).
Proof.
  cbv zeta. unfold advance. destruct (threads s !! tid) as [t|].
  - pose proof (worker_step_shape written e (pipe s) t)
      as (H1 & H2 & H3 & H4 & H5 & H6 & H7 & H8 & H9).
    destruct (worker_step written e (pipe s) t) as [[p' t'] evs]. simpl in *.
    rewrite !count_app, length_insert.
    repeat split; try assumption; try reflexivity. lia.
  - repeat split; try reflexivity. lia.
Qed.

(** A step of a thread is one of the two kinds of [advance]. *)
Lemma step_is_advance (a : action) (s : System) :
  is_run a = true ->
  exists (written : bool) (tid : nat) (e : env),
    step a s = advance written tid e s.
Proof.
  destruct a as [| | | | |text tr|tid e|tid e]; try discriminate; intros _.
  - exists true, tid, e. reflexivity.
  - exists false, tid, e. reflexivity.
Qed.

Lemma step_run_shape (a : action) (s : System) :
  is_run a = true ->
  let s' := step a s in
  is_running (pipe s') = is_running (pipe s) /\
  is_paused (pipe s') = is_paused (pipe s) /\
  on_bengali_update (pipe s') = on_bengali_update (pipe s) /\
  on_english_update (pipe s') = on_english_update (pipe s) /\
  recording_thread (pipe s') = recording_thread (pipe s) /\
  processing_thread (pipe s') = processing_thread (pipe s) /\
  current_bengali_text (pipe s) `prefix_of` current_bengali_text (pipe s') /\
  current_english_text (pipe s) `prefix_of` current_english_text (pipe s') /\
  (count is_set_english (trace s') + count is_set_bengali (trace s)
   <= count is_set_bengali (trace s') + count is_set_english (trace s))%nat /\
  length (threads s') = length (threads s).
Proof.
  intros Ha. destruct (step_is_advance a s Ha) as (written & tid & e & ->).
  apply advance_shape.
Qed.

(** A step of a thread starts no processing thread. *)
Lemma worker_step_kind (written : bool) (e : env)
    (p : TranscriptionPipeline) (t : thread) :
  (weight processing (snd (fst (worker_step written e p t)))
   <= weight processing t)%nat.
Proof.
  destruct t as [|pc| |l|]; simpl; try apply le_n.
  - destruct pc as [| | |data level|]; simpl; try apply le_n.
    + destruct (is_running p); apply le_n.
    + destruct (is_paused p); apply le_n.
    + destruct (mic e) as [data|]; [destruct (audio_level data)|]; apply le_n.
  - destruct (is_running p); [|unfold weight; simpl; lia].
    destruct (processing_iteration _ _ _ _ p l) as [[p' [l'|]] evs];
      unfold weight; simpl; lia.
Qed.

Lemma step_kind (a : action) (s : System) :
  is_start a = false ->
  (census processing (threads (step a s))
   <= census processing (threads s))%nat.
Proof.
  intros Ha.
  assert (Hany : forall written tid e,
            (census processing (threads (advance written tid e s))
             <= census processing (threads s))%nat).
  { intros written tid e. unfold advance.
    destruct (threads s !! tid) as [t|] eqn:Ht; [|apply le_n].
    pose proof (worker_step_kind written e (pipe s) t) as Hk.
    pose proof (census_insert processing (threads s) tid t
                  (snd (fst (worker_step written e (pipe s) t))) Ht) as Hc.
    destruct (worker_step written e (pipe s) t) as [[p' t'] evs].
    cbn [fst snd threads] in *. lia. }
  destruct a as [| | | | |text tr|tid e|tid e]; try discriminate Ha;
    try apply le_n; apply Hany.
Qed.

End Runs.

(** X1: whatever the scheduler lets the worker threads do, they never
    write [is_running], [is_paused], the two callbacks, the two thread
    handles or the dictionary, and they never add or remove a thread:
    only the calls of the controller do. *)
Theorem workers_leave_controls (sched : list action) (s : System) :
  forallb is_run sched = true ->
  let s' := run sched s in
  is_running (pipe s') = is_running (pipe s) /\
  is_paused (pipe s') = is_paused (pipe s) /\
  on_bengali_update (pipe s') = on_bengali_update (pipe s) /\
  on_english_update (pipe s') = on_english_update (pipe s) /\
  recording_thread (pipe s') = recording_thread (pipe s) /\
  processing_thread (pipe s') = processing_thread (pipe s) /\
  bengali_medical_terms (pipe s') = bengali_medical_terms (pipe s) /\
  length (threads s') = length (threads s).
Proof.
  cbv zeta. induction sched as [|a sched IH] using rev_ind; intros Hall.
  - repeat split.
  - rewrite forallb_app in Hall. apply andb_true_iff in Hall.
    destruct Hall as [Hs Ha]. simpl in Ha. rewrite andb_true_r in Ha.
    destruct (IH Hs) as (I1 & I2 & I3 & I4 & I5 & I6 & I7 & I8).
    rewrite run_snoc.
    destruct (step_run_shape a (run sched s) Ha)
      as (H1 & H2 & H3 & H4 & H5 & H6 & _ & _ & _ & H10).
    rewrite step_terms.
    repeat split; congruence.
Qed.

Lemma workers_leave_controls_witness :
  let s := run [CallStart; CallPause] boot in
  let s' := run [Run 0 (quiet_env 0); Run 1 (quiet_env 0); Run 0 (quiet_env 1)] s in
  is_running (pipe s') = true /\ is_paused (pipe s') = true.
Proof.
  intros s s'.
  destruct (workers_leave_controls
              [Run 0 (quiet_env 0); Run 1 (quiet_env 0); Run 0 (quiet_env 1)]
              s eq_refl) as (H1 & H2 & _).
  split; [exact H1 | exact H2].
Defined.

(** X2: in a session with at most one processing thread, in which
    [start] is not called again and nobody calls the manual edit, the
    two transcripts only grow: whatever is paused, resumed, stopped or
    run, the source text and the target text of an earlier state are
    prefixes of the later ones.  The one processing thread is then the
    only writer of the two texts, and its writes come in program order. *)
Theorem live_transcripts_only_grow (early later : list action) (s : System) :
  (census processing (threads s) <= 1)%nat ->
  forallb (fun a => negb (is_edit a) && negb (is_start a)) (early ++ later)
  = true ->
  let s1 := run early s in
  let s2 := run (early ++ later) s in
  (census processing (threads s2) <= 1)%nat /\
  current_bengali_text (pipe s1) `prefix_of` current_bengali_text (pipe s2) /\
  current_english_text (pipe s1) `prefix_of` current_english_text (pipe s2).
Proof.
  intros Hone Hall s1 s2.
  assert (Hgen : forall (sched : list action) (s0 : System),
            forallb (fun a => negb (is_edit a) && negb (is_start a)) sched
            = true ->
            (census processing (threads (run sched s0))
             <= census processing (threads s0))%nat /\
            current_bengali_text (pipe s0)
              `prefix_of` current_bengali_text (pipe (run sched s0)) /\
            current_english_text (pipe s0)
              `prefix_of` current_english_text (pipe (run sched s0))).
  { intros sched s0.
    induction sched as [|a sched IH] using rev_ind; intros Hs.
    - split; [apply le_n | split; reflexivity].
    - rewrite forallb_app in Hs. apply andb_true_iff in Hs.
      destruct Hs as [Hs Ha]. simpl in Ha. rewrite andb_true_r in Ha.
      apply andb_true_iff in Ha. destruct Ha as [He Hst].
      apply negb_true_iff in Hst.
      destruct (IH Hs) as (Ic & Ib & Ie). rewrite run_snoc.
      pose proof (step_kind a (run sched s0) Hst) as Hk.
      split; [lia|].
      destruct (is_run a) eqn:Hrun.
      + destruct (step_run_shape a (run sched s0) Hrun)
          as (_ & _ & _ & _ & _ & _ & H7 & H8 & _).
        split; etrans; eassumption.
      + destruct a as [| | | | |text tr|tid e|tid e];
          try discriminate Hrun; try discriminate He; try discriminate Hst;
          split; assumption. }
  rewrite forallb_app in Hall. apply andb_true_iff in Hall.
  destruct Hall as [H1 H2].
  destruct (Hgen early s H1) as (Hc1 & _ & _).
  subst s1 s2. rewrite run_app.
  destruct (Hgen later (run early s) H2) as (Hc2 & Hb & He).
  split; [lia|]. split; assumption.
Qed.

Lemma live_transcripts_only_grow_witness :
  let s := start boot in
  let e := mkEnv 5 (Some silent_frame) (Recognized (of_string "jor"))
             (Translated (of_string "fever")) in
  let f := mkEnv 9 (Some silent_frame) (Recognized (of_string "kashi"))
             (Translated (of_string "cough")) in
  let early := [Run 0 e; Run 0 e; Run 0 e; Run 0 e; Run 1 e; Run 1 e] in
  let later := [Run 0 f; Run 0 f; Run 0 f; Run 0 f; CallPause; Run 1 f;
                CallStopSignal] in
  current_bengali_text (pipe (run early s)) = [] /\
  current_bengali_text (pipe (run (early ++ later) s)) = of_string "kashi" /\
  current_bengali_text (pipe (run early s))
    `prefix_of` current_bengali_text (pipe (run (early ++ later) s)).
Proof.
  intros s e f early later.
  split; [reflexivity|]. split; [reflexivity|].
  refine (proj1 (proj2 (live_transcripts_only_grow early later s _ eq_refl))).
  vm_compute. lia.
Defined.

(** X3: the target text never moves without the source text.  A cycle
    whose recognition returns a non-empty text makes the source text
    strictly longer whatever the translation does; a cycle that changes
    the target text has changed the source text; and over any schedule
    the workers write the target text at most as often as the source
    text. *)
Theorem target_follows_source :
  (forall (frames : list bytes) (text : str) (tr : translation)
          (p : TranscriptionPipeline),
     truthy text = true ->
     (length (current_bengali_text p)
      < length (current_bengali_text
                  (fst (recognition_cycle frames (Recognized text) tr p))))%nat) /\
  (forall (frames : list bytes) (rc : recognition) (tr : translation)
          (p : TranscriptionPipeline),
     current_english_text (fst (recognition_cycle frames rc tr p))
       <> current_english_text p ->
     current_bengali_text (fst (recognition_cycle frames rc tr p))
       <> current_bengali_text p) /\
  (forall (sched : list action) (s : System),
     (count is_set_english (trace (run sched s)) + count is_set_bengali (trace s)
      <= count is_set_bengali (trace (run sched s)) + count is_set_english (trace s))%nat).
Proof.
  assert (Hgrow : forall frames text tr p, truthy text = true ->
            current_bengali_text
              (fst (recognition_cycle frames (Recognized text) tr p))
            = append_text (current_bengali_text p) text).
  { intros frames text tr p Ht. unfold recognition_cycle, translate_live.
    rewrite Ht.
    destruct tr as [english|];
      [|destruct (bengali_medical_terms (set_bengali _ p) !! text)];
      reflexivity. }
  split; [|split].
  - intros frames text tr p Ht. rewrite Hgrow by exact Ht.
    apply append_text_longer. exact Ht.
  - intros frames rc tr p Hne.
    destruct rc as [text| | |]; try (exfalso; apply Hne; reflexivity).
    destruct (truthy text) eqn:Ht.
    + rewrite Hgrow by exact Ht. intros Heq.
      pose proof (append_text_longer (current_bengali_text p) text Ht) as Hl.
      rewrite Heq in Hl. lia.
    + exfalso. apply Hne. unfold recognition_cycle. rewrite Ht. reflexivity.
  - intros sched. induction sched as [|a sched IH] using rev_ind; intros s.
    + simpl. lia.
    + rewrite run_snoc. specialize (IH s).
      destruct (is_run a) eqn:Hrun.
      * pose proof (step_run_shape a (run sched s) Hrun)
          as (_ & _ & _ & _ & _ & _ & _ & _ & H9 & _).
        cbv zeta in H9. lia.
      * destruct a as [| | | | |text tr|tid e|tid e];
          try discriminate Hrun; exact IH.
Qed.

Lemma target_follows_source_witness :
  (length (current_bengali_text init)
   < length (current_bengali_text
               (fst (recognition_cycle [] (Recognized (of_string "jor"))
                       TranslationError init))))%nat.
Proof.
  apply (proj1 target_follows_source). reflexivity.
Defined.

(** ** From the microphone to the recognizer *)

Section Conservation.

Lemma frames_read_app (a b : list event) :
  frames_read (a ++ b) = frames_read a ++ frames_read b.
Proof.
  induction a as [|e a IH]; [reflexivity|].
  destruct e; simpl; rewrite IH; reflexivity.
Qed.

(** The steps of a recording thread, frame by frame. *)
Lemma recording_step_frames (written : bool) (e : env)
    (p : TranscriptionPipeline) (pc : rec_pc) :
  let r := worker_step written e p (Rec pc) in
  frames_windowed (snd r) = [] /\
  map fst (audio_queue (fst (fst r)))
    = map fst (audio_queue p) ++ frames_put (snd r) /\
  match pc with
  | AtPut data _ =>
      frames_put (snd r) = [data] /\ frames_read (snd r) = [] /\
      snd (fst r) = Rec AtWhile
  | AtRead =>
      frames_put (snd r) = [] /\
      ((exists data level,
          frames_read (snd r) = [data] /\ snd (fst r) = Rec (AtPut data level))
       \/ snd (fst r) = Done)
  | _ =>
      frames_put (snd r) = [] /\ frames_read (snd r) = [] /\
      forall data level, snd (fst r) <> Rec (AtPut data level)
  end /\
  (forall l, snd (fst r) <> Proc l) /\ snd (fst r) <> ProcNew.
Proof.
  cbv zeta. destruct pc as [| | |data level|]; simpl.
  - destruct (is_running p); simpl; rewrite app_nil_r; repeat split; discriminate.
  - destruct (is_paused p); simpl; rewrite app_nil_r; repeat split; discriminate.
  - destruct (mic e) as [data|]; [destruct (audio_level data) as [level|]|];
      simpl; rewrite app_nil_r; repeat split; try discriminate;
      first [left; exists data, level; split; reflexivity | right; reflexivity].
  - rewrite map_app. repeat split; discriminate.
  - rewrite app_nil_r. repeat split; discriminate.
Qed.

(** A cycle reads nothing from the microphone. *)
Lemma recognition_cycle_reads (frames : list bytes) (rc : recognition)
    (tr : translation) (p : TranscriptionPipeline) :
  frames_read (snd (recognition_cycle frames rc tr p)) = [].
Proof.
  unfold recognition_cycle, translate_live.
  destruct rc as [text| | |]; try reflexivity.
  destruct (truthy text); [|reflexivity].
  destruct tr as [english|];
    [|destruct (bengali_medical_terms (set_bengali _ p) !! text)];
    cbn [current_english_text on_english_update set_bengali
         on_bengali_update];
    destruct (on_bengali_update p), (on_english_update p); reflexivity.
Qed.

(** One iteration of the processing loop moves frames from the queue to
    the buffer or to a window, and loses none as long as the loop goes
    on. *)
Lemma processing_iteration_frames (written : bool) (current_time : float)
    (rc : recognition) (tr : translation) (p : TranscriptionPipeline)
    (l : ProcLocal) :
  let r := processing_iteration written current_time rc tr p l in
  frames_put (snd r) = [] /\ frames_read (snd r) = [] /\
  match snd (fst r) with
  | Some l' =>
      frames_windowed (snd r) ++ audio_buffer l'
        ++ map fst (audio_queue (fst (fst r)))
      = audio_buffer l ++ map fst (audio_queue p)
  | None => frames_windowed (snd r) = []
  end.
Proof.
  intros r.
  destruct (processing_iteration_cases written current_time rc tr p l)
    as [(_ & _ & Hr)|[(_ & _ & Hr)|(_ & Hr)]]; fold r in Hr; rewrite Hr;
    cbn [fst snd];
    [|repeat split|cbn; rewrite app_nil_r; repeat split].
  pose proof (recognition_cycle_frame
                (audio_buffer l ++ map fst (audio_queue p)) rc tr
                (set_queue [] p)) as (_ & _ & Hq & _).
  pose proof (recognition_cycle_events
                (audio_buffer l ++ map fst (audio_queue p)) rc tr
                (set_queue [] p)) as (_ & _ & Hp & Hw).
  pose proof (recognition_cycle_reads
                (audio_buffer l ++ map fst (audio_queue p)) rc tr
                (set_queue [] p)) as Hrd.
  cbv zeta in Hq, Hp, Hw. rewrite Hq.
  change (WriteWav ?b :: ?x ++ ?y) with ([WriteWav b] ++ x ++ y).
  rewrite !frames_put_app, !frames_read_app, !frames_windowed_app, Hp, Hrd, Hw.
  simpl. rewrite !app_nil_r. repeat split.
Qed.

End Conservation.

Section Session.

Lemma session_ok_start : session_ok (start boot).
Proof. exists RecNew, ProcNew. repeat split. Qed.

Lemma session_ok_on_pipe (f : TranscriptionPipeline -> TranscriptionPipeline)
    (s : System) :
  audio_queue (f (pipe s)) = audio_queue (pipe s) ->
  session_ok s -> session_ok (on_pipe f s).
Proof.
  intros Hq (t0 & t1 & Ht & Hc & Ha). exists t0, t1.
  unfold on_pipe. simpl. rewrite Hq. repeat split; assumption.
Qed.

(** The steps of a processing thread, frame by frame. *)
Lemma processing_step_frames (written : bool) (e : env)
    (p : TranscriptionPipeline) (t : thread) (buf : list bytes) :
  (t = ProcNew /\ buf = []) \/ (exists l, t = Proc l /\ buf = audio_buffer l) ->
  let r := worker_step written e p t in
  frames_put (snd r) = [] /\ frames_read (snd r) = [] /\
  ((exists l',
      snd (fst r) = Proc l' /\
      frames_windowed (snd r) ++ audio_buffer l'
        ++ map fst (audio_queue (fst (fst r)))
      = buf ++ map fst (audio_queue p)) \/
   (snd (fst r) = Done /\ frames_windowed (snd r) = [])).
Proof.
  intros [[-> ->] | (l & -> & ->)]; cbv zeta.
  - simpl. repeat split. left. eexists. split; reflexivity.
  - simpl. destruct (is_running p).
    + pose proof (processing_iteration_frames written (now e) (heard e)
                    (rendered e) p l) as (Hp & Hr & Hw).
      destruct (processing_iteration _ _ _ _ p l) as [[p' [l'|]] evs];
        simpl in *; repeat split; try assumption.
      * left. exists l'. split; [reflexivity | exact Hw].
      * right. split; [reflexivity | exact Hw].
    + simpl. repeat split. right. repeat split.
Qed.

Lemma session_ok_advance (written : bool) (tid : nat) (e : env) (s : System) :
  session_ok s -> session_ok (advance written tid e s).
Proof.
  intros (t0 & t1 & Ht & Hc & Ha). unfold advance. rewrite Ht.
  destruct tid as [|[|k]].
  - (* the recording thread *)
    change ([t0; t1] !! 0%nat) with (Some t0).
    destruct t0 as [|pc| |l|]; simpl in Hc; try contradiction.
    + exists (Rec AtWhile), t1. simpl. rewrite !app_nil_r.
      repeat split; assumption.
    + pose proof (recording_step_frames written e (pipe s) pc)
        as (Hw & Hq & Hpc & Hk1 & Hk2).
      destruct (worker_step written e (pipe s) (Rec pc))
        as [[p' t'] evs] eqn:Hstep.
      simpl in Hw, Hq, Hpc, Hk1, Hk2. exists t', t1.
      cbn [threads trace pipe].
      rewrite frames_read_app, frames_put_app, frames_windowed_app, Hw, Hq.
      rewrite app_nil_r. split; [reflexivity|]. split.
      * assert (Hkeep : frames_put evs = [] -> frames_read evs = [] ->
                  (forall data level, t' <> Rec (AtPut data level)) ->
                  frames_read (trace s) = frames_put (trace s) ->
                  capture_ok t' (frames_read (trace s) ++ [])
                    (frames_put (trace s) ++ [])).
        { intros _ _ Hn Heq. rewrite !app_nil_r.
          destruct t' as [|pc'| |l'|]; simpl.
          - exact Heq.
          - destruct pc'; try exact Heq. exfalso. eapply Hn. reflexivity.
          - apply Hk2. reflexivity.
          - eapply Hk1. reflexivity.
          - rewrite Heq. reflexivity. }
        destruct pc as [| | |data level|]; simpl in Hc.
        -- destruct Hpc as (Hp & Hr & Hn). rewrite Hp, Hr. auto.
        -- destruct Hpc as (Hp & Hr & Hn). rewrite Hp, Hr. auto.
        -- destruct Hpc as (Hp & [(data & level & Hr & ->) | ->]);
             rewrite Hp, app_nil_r.
           ++ rewrite Hr, Hc. reflexivity.
           ++ simpl. rewrite Hc. apply prefix_app_r. reflexivity.
        -- destruct Hpc as (Hp & Hr & ->). rewrite Hp, Hr, app_nil_r.
           simpl. exact Hc.
        -- destruct Hpc as (Hp & Hr & Hn). rewrite Hp, Hr. auto.
      * destruct t1 as [|pc1| |l1|]; simpl in Ha |- *; try contradiction.
        -- rewrite Ha, <- app_assoc. reflexivity.
        -- rewrite Ha, <- !app_assoc. reflexivity.
        -- apply prefix_app_r. exact Ha.
    + exists Done, t1. simpl. rewrite !app_nil_r.
      repeat split; assumption.
  - (* the processing thread *)
    change ([t0; t1] !! 1%nat) with (Some t1).
    assert (Hkind : exists buf,
              ((t1 = ProcNew /\ buf = []) \/
               (exists l, t1 = Proc l /\ buf = audio_buffer l)) /\
              frames_put (trace s)
              = frames_windowed (trace s) ++ buf
                  ++ map fst (audio_queue (pipe s))
            \/ t1 = Done).
    { destruct t1 as [|pc1| |l1|]; simpl in Ha; try contradiction.
      - exists []. left. split; [left; split; reflexivity | exact Ha].
      - exists (audio_buffer l1). left.
        split; [right; exists l1; split; reflexivity | exact Ha].
      - exists []. right. reflexivity. }
    destruct Hkind as (buf & [(Hk & Heq) | ->]).
    + pose proof (processing_step_frames written e (pipe s) t1 buf Hk)
        as (Hp & Hr & Hcase).
      destruct (worker_step written e (pipe s) t1) as [[p' t'] evs].
      simpl in Hp, Hr, Hcase. exists t0, t'. cbn [threads trace pipe].
      rewrite frames_read_app, frames_put_app, frames_windowed_app, Hp, Hr.
      rewrite !app_nil_r. split; [reflexivity|]. split; [exact Hc|].
      destruct Hcase as [(l' & -> & Hw) | (-> & Hw)]; simpl.
      * rewrite Heq, <- app_assoc, Hw. reflexivity.
      * rewrite Hw, app_nil_r, Heq. apply prefix_app_r. reflexivity.
    + exists t0, Done. simpl. rewrite !app_nil_r.
      repeat split; assumption.
  - exists t0, t1. simpl. rewrite Ht. repeat split; assumption.
Qed.

Lemma session_ok_run_thread (a : action) (s : System) :
  is_run a = true -> session_ok s -> session_ok (step a s).
Proof.
  intros Ha. destruct (step_is_advance a s Ha) as (written & tid & e & ->).
  apply session_ok_advance.
Qed.

End Session.

(** X4: in a session started once, every frame the recognizer is given was
    pushed on the queue, and every frame pushed was read from the
    microphone, in the same order and without repetition: the frames of
    the windows, taken in order, are a prefix of the frames pushed, which
    are a prefix of the frames read.  While the processing thread is in
    its loop no pushed frame is lost: the frames pushed are exactly the
    windows, then its buffer, then the queue. *)
Theorem frames_flow_in_order (sched : list action) :
  forallb (fun a => negb (is_start a)) sched = true ->
  let s := run sched (start boot) in
  frames_windowed (trace s) `prefix_of` frames_put (trace s) /\
  frames_put (trace s) `prefix_of` frames_read (trace s) /\
  (forall l, threads s !! 1%nat = Some (Proc l) ->
     frames_put (trace s)
     = frames_windowed (trace s) ++ audio_buffer l
         ++ map fst (audio_queue (pipe s))).
Proof.
  intros Hall s.
  assert (Hok : session_ok s).
  { subst s. induction sched as [|a sched IH] using rev_ind.
    - apply session_ok_start.
    - rewrite forallb_app in Hall. apply andb_true_iff in Hall.
      destruct Hall as [Hs Ha]. simpl in Ha. rewrite andb_true_r in Ha.
      specialize (IH Hs). rewrite run_snoc.
      destruct a as [| | | | |text tr|tid e|tid e]; try discriminate Ha;
        try (apply session_ok_on_pipe; [reflexivity | exact IH]);
        (apply session_ok_run_thread; [reflexivity | exact IH]). }
  destruct Hok as (t0 & t1 & Ht & Hc & Ha).
  split; [|split].
  - destruct t1 as [|pc1| |l1|]; simpl in Ha; try contradiction.
    + rewrite Ha. apply prefix_app_r. reflexivity.
    + rewrite Ha. apply prefix_app_r. reflexivity.
    + exact Ha.
  - destruct t0 as [|pc| |l0|]; simpl in Hc; try contradiction.
    + rewrite Hc. reflexivity.
    + destruct pc; rewrite Hc; try reflexivity. apply prefix_app_r. reflexivity.
    + exact Hc.
  - intros l Hl. rewrite Ht in Hl. simpl in Hl. injection Hl as ->.
    exact Ha.
Qed.

Lemma frames_flow_in_order_witness :
  let e := quiet_env 0 in
  let s := run [Run 0 e; Run 0 e; Run 0 e; Run 0 e; Run 0 e; Run 1 e; Run 1 e;
                CallPause; Run 0 e; CallStopSignal; Run 1 e]
             (start boot) in
  frames_windowed (trace s) `prefix_of` frames_put (trace s) /\
  frames_put (trace s) `prefix_of` frames_read (trace s).
Proof.
  intros e s.
  destruct (frames_flow_in_order
              [Run 0 e; Run 0 e; Run 0 e; Run 0 e; Run 0 e; Run 1 e; Run 1 e;
               CallPause; Run 0 e; CallStopSignal; Run 1 e] eq_refl)
    as (H1 & H2 & _).
  split; [exact H1 | exact H2].
Defined.

(** ** Stopping *)

Section Stopping.

(** One step of a thread that finds [is_running] false. *)
Lemma worker_step_stopped (written : bool) (e : env)
    (p : TranscriptionPipeline) (t : thread) :
  is_running p = false ->
  let r := worker_step written e p t in
  (remaining (snd (fst r)) <= remaining t - 1)%nat /\
  (count is_put (snd r) + weight owes_put (snd (fst r)) <= weight owes_put t)%nat /\
  (recorder t = true -> recorder (snd (fst r)) = true \/ snd (fst r) = Done).
Proof.
  intros Hr. cbv zeta.
  assert (Hrun : forall X Y : TranscriptionPipeline * thread * list event,
            (if is_running p then X else Y) = Y).
  { intros X Y. rewrite Hr. reflexivity. }
  destruct t as [|pc| |l|]; [|destruct pc as [| | |data level|]| | |];
    cbn [worker_step]; rewrite ?Hrun;
    try destruct (negb (is_paused p));
    try (destruct (mic e) as [data|]; [destruct (audio_level data)|]);
    cbn [fst snd];
    (split; [simpl; lia|]);
    (split; [unfold count, weight; simpl; lia|]);
    simpl; first [discriminate | intros _; left; reflexivity
                 | intros _; right; reflexivity].
Qed.

Lemma runs_of_snoc (tid : nat) (sched : list action) (a : action) :
  runs_of tid (sched ++ [a])
  = (runs_of tid sched
     + match a with
       | Run k _ | RunUnwritten k _ => if Nat.eqb k tid then 1 else 0
       | _ => 0
       end)%nat.
Proof.
  unfold runs_of. rewrite List.filter_app, length_app. f_equal.
  destruct a as [| | | | |text tr|k e|k e]; try reflexivity;
    simpl; destruct (Nat.eqb k tid); reflexivity.
Qed.

(** What one step of thread [k] does to a stopped process. *)
Lemma advance_stopped (written : bool) (k : nat) (e : env) (s : System) :
  is_running (pipe s) = false ->
  let s' := advance written k e s in
  is_running (pipe s') = false /\
  (count is_put (trace s') + census owes_put (threads s')
   <= count is_put (trace s) + census owes_put (threads s))%nat /\
  (forall (tid : nat) (t : thread),
     threads s !! tid = Some t ->
     exists t', threads s' !! tid = Some t' /\
       (remaining t' + (if Nat.eqb k tid then 1 else 0) <= remaining t
        \/ t' = Done)%nat /\
       (remaining t' <= remaining t)%nat /\
       (recorder t = true -> recorder t' = true \/ t' = Done)).
Proof.
  intros Hr. cbv zeta. unfold advance.
  destruct (threads s !! k) as [u|] eqn:Hu.
  - pose proof (worker_step_stopped written e (pipe s) u Hr)
      as (Hrem & Hput & Hrec).
    pose proof (worker_step_shape written e (pipe s) u) as (Hkeep & _).
    pose proof (census_insert owes_put (threads s) k u
                  (snd (fst (worker_step written e (pipe s) u))) Hu) as Hcen.
    destruct (worker_step written e (pipe s) u) as [[p' u'] evs].
    cbn [fst snd] in Hrem, Hput, Hrec, Hkeep, Hcen. cbn [pipe trace threads].
    rewrite !count_app.
    split; [congruence|]. split; [lia|].
    intros tid t Ht. destruct (Nat.eqb k tid) eqn:Hk.
    + apply Nat.eqb_eq in Hk. subst k.
      rewrite Hu in Ht. injection Ht as ->.
      exists u'. split.
      * apply list_lookup_insert_eq. apply lookup_lt_Some in Hu. exact Hu.
      * split; [|split; [lia | exact Hrec]].
        destruct u' as [|[]| | |]; try (right; reflexivity); left;
          destruct t as [|[]| | |]; simpl in Hrem |- *; lia.
    + apply Nat.eqb_neq in Hk. exists t.
      split; [rewrite list_lookup_insert_ne by exact Hk; exact Ht|].
      split; [left; lia|]. split; [lia|]. intros H. left. exact H.
  - split; [exact Hr|]. split; [apply le_n|].
    intros tid t Ht. exists t. split; [exact Ht|].
    split; [|split; [lia | intros H; left; exact H]].
    destruct (Nat.eqb k tid) eqn:Hk; [|left; lia].
    apply Nat.eqb_eq in Hk. subst k. congruence.
Qed.

End Stopping.

(** X5: once [is_running] is false and [start] is not called again, the
    flag stays false and every recording thread is finished after at
    most four steps of its own (a recording thread that is picked n
    times has at most its bound minus n steps left, and it never turns
    into another kind of thread); the recording threads push at most
    one more frame each, and only those that had already passed the
    test of their while. *)
Theorem workers_finish_after_stop (sched : list action) (s : System) :
  is_running (pipe s) = false ->
  forallb (fun a => negb (is_start a)) sched = true ->
  let s' := run sched s in
  is_running (pipe s') = false /\
  (count is_put (trace s') <= count is_put (trace s) + census owes_put (threads s))%nat /\
  (forall (tid : nat) (t : thread),
     threads s !! tid = Some t ->
     recorder t = true ->
     exists t', threads s' !! tid = Some t' /\
       (recorder t' = true \/ t' = Done) /\
       (remaining t' <= remaining t - runs_of tid sched)%nat /\
       ((4 <= runs_of tid sched)%nat -> t' = Done)).
Proof.
  intros Hr Hall. cbv zeta.
  assert (Hgen :
    is_running (pipe (run sched s)) = false /\
    (count is_put (trace (run sched s)) + census owes_put (threads (run sched s))
     <= count is_put (trace s) + census owes_put (threads s))%nat /\
    (forall tid t, threads s !! tid = Some t ->
       exists t', threads (run sched s) !! tid = Some t' /\
         (remaining t' <= remaining t - runs_of tid sched)%nat /\
         (recorder t = true -> recorder t' = true \/ t' = Done))).
  { induction sched as [|a sched IH] using rev_ind.
    - split; [exact Hr|]. split; [apply le_n|].
      intros tid t Ht. exists t. split; [exact Ht|].
      split; [unfold runs_of; simpl; lia | intros H; left; exact H].
    - rewrite forallb_app in Hall. apply andb_true_iff in Hall.
      destruct Hall as [Hs Ha]. simpl in Ha. rewrite andb_true_r in Ha.
      destruct (IH Hs) as (I1 & I3 & I4). rewrite run_snoc.
      assert (Hany : forall written k e,
        is_running (pipe (advance written k e (run sched s))) = false /\
        (count is_put (trace (advance written k e (run sched s)))
         + census owes_put (threads (advance written k e (run sched s)))
         <= count is_put (trace s) + census owes_put (threads s))%nat /\
        (forall tid t, threads s !! tid = Some t ->
           exists t', threads (advance written k e (run sched s)) !! tid
                      = Some t' /\
             (remaining t'
              <= remaining t
                 - (runs_of tid sched + if Nat.eqb k tid then 1 else 0))%nat /\
             (recorder t = true -> recorder t' = true \/ t' = Done))).
      { intros written k e.
        destruct (advance_stopped written k e (run sched s) I1)
          as (A1 & A2 & A3).
        split; [exact A1|]. split; [lia|].
        intros tid t Ht. destruct (I4 tid t Ht) as (t1 & Ht1 & Hb1 & Hk1).
        destruct (A3 tid t1 Ht1) as (t' & Ht' & Hdec & Hle & Hk').
        exists t'. split; [exact Ht'|]. split.
        - destruct Hdec as [Hdec | ->]; [lia | simpl; lia].
        - intros Hrec. destruct (Hk1 Hrec) as [H | ->].
          + apply Hk'. exact H.
          + right. destruct (Nat.eqb k tid); simpl in Hle;
              destruct t' as [|[]| | |]; simpl in Hle; try lia; reflexivity. }
      destruct a as [| | | | |text tr|k e|k e]; try discriminate Ha;
        try (split; [first [exact I1 | reflexivity]|];
             split; [exact I3|];
             intros tid t Ht; destruct (I4 tid t Ht) as (t' & Ht' & Hb & Hk);
             exists t'; split; [exact Ht'|];
             split; [rewrite runs_of_snoc; simpl; rewrite Nat.add_0_r; exact Hb
                    | exact Hk]).
      + destruct (Hany true k e) as (H1 & H2 & H3).
        split; [exact H1|]. split; [exact H2|].
        intros tid t Ht. rewrite runs_of_snoc. exact (H3 tid t Ht).
      + destruct (Hany false k e) as (H1 & H2 & H3).
        split; [exact H1|]. split; [exact H2|].
        intros tid t Ht. rewrite runs_of_snoc. exact (H3 tid t Ht). }
  destruct Hgen as (G1 & G3 & G4).
  split; [exact G1|]. split; [lia|].
  intros tid t Ht Hrec. destruct (G4 tid t Ht) as (t' & Ht' & Hb & Hk).
  exists t'. split; [exact Ht'|]. split; [exact (Hk Hrec)|].
  split; [exact Hb|].
  intros Hfour.
  assert (Hz : remaining t' = 0%nat).
  { assert (remaining t <= 4)%nat by (destruct t as [|[]| | |]; simpl; lia). lia. }
  destruct t' as [|[]| | |]; simpl in Hz; try discriminate Hz. reflexivity.
Qed.

Lemma workers_finish_after_stop_witness :
  let e := quiet_env 0 in
  let s := run [CallStart; Run 0 e; Run 0 e; Run 1 e; CallStopSignal] boot in
  let s' := run [Run 0 e; Run 1 e; Run 0 e; Run 0 e; Run 0 e] s in
  threads s !! 0%nat = Some (Rec AtIfPaused) /\
  is_running (pipe s') = false /\
  (count is_put (trace s') <= count is_put (trace s) + census owes_put (threads s))%nat /\
  threads s' !! 0%nat = Some Done.
Proof.
  intros e s s'. split; [reflexivity|].
  destruct (workers_finish_after_stop
              [Run 0 e; Run 1 e; Run 0 e; Run 0 e; Run 0 e] s eq_refl eq_refl)
    as (H1 & H2 & H3).
  split; [exact H1|]. split; [exact H2|].
  destruct (H3 0%nat (Rec AtIfPaused) eq_refl eq_refl)
    as (t' & Ht' & _ & _ & Hdone).
  assert (Hfour : (4 <= runs_of 0 [Run 0 e; Run 1 e; Run 0 e; Run 0 e; Run 0 e])%nat)
    by (vm_compute; lia).
  rewrite (Hdone Hfour) in Ht'. exact Ht'.
Defined.

(** ** The level meter on every buffer *)

Section LevelCases.

Lemma frombuffer_parity (data : bytes) :
  (Nat.even (length data) = true ->
   exists a, frombuffer_int16 data = Some a /\ (2 * length a = length data)%nat) /\
  (Nat.even (length data) = false -> frombuffer_int16 data = None).
Proof.
  induction data as [data IH] using (well_founded_induction
    (well_founded_ltof _ (@length Byte.byte))).
  destruct data as [|lo [|hi rest]].
  - split; [intros _; exists []; split; reflexivity | discriminate].
  - split; [discriminate | reflexivity].
  - assert (Hlt : ltof _ (@length Byte.byte) rest (lo :: hi :: rest))
      by (unfold ltof; simpl; lia).
    destruct (IH rest Hlt) as [He Ho].
    change (Nat.even (length (lo :: hi :: rest))) with (Nat.even (length rest)).
    split.
    + intros H. destruct (He H) as (a & Ha & Hl).
      exists (int16_le lo hi :: a). simpl. rewrite Ha.
      split; [reflexivity | simpl; lia].
    + intros H. simpl. rewrite (Ho H). reflexivity.
Qed.

End LevelCases.

(** X6: the level of any buffer.  A buffer with an odd number of bytes
    makes the computation raise; the empty buffer gives nan; every other
    buffer gives a number between -1 and 1, one sample for every two
    bytes, and that number is between 0 and 1 when no sample is -32768. *)
Theorem audio_level_cases (data : bytes) :
  (Nat.even (length data) = false -> audio_level data = None) /\
  (data = [] -> audio_level data = Some NaN) /\
  (Nat.even (length data) = true -> data <> [] ->
   exists (a : list Z) (q : Q),
     frombuffer_int16 data = Some a /\ (2 * length a = length data)%nat /\
     audio_level data = Some (Finite q) /\
     (-1 <= q /\ q <= 1)%Q /\
     (Forall (fun x => x <> -32768) a -> in_unit_interval (Finite q))).
Proof.
  destruct (frombuffer_parity data) as [He Ho].
  split; [|split].
  - intros H. unfold audio_level. rewrite (Ho H). reflexivity.
  - intros ->. reflexivity.
  - intros H Hne. destruct (He H) as (a & Ha & Hl).
    assert (Hane : a <> []).
    { intros ->. destruct data; [congruence | simpl in Hl; lia]. }
    destruct (audio_level_bounds data a Ha Hane) as (q & Hq & Hb & Hu).
    exists a, q. split; [exact Ha|]. split; [exact Hl|]. split; [exact Hq|].
    split; [exact Hb | exact Hu].
Qed.

Lemma audio_level_cases_witness :
  exists (a : list Z) (q : Q),
    frombuffer_int16 silent_frame = Some a /\
    (2 * length a = length silent_frame)%nat /\
    audio_level silent_frame = Some (Finite q) /\
    (-1 <= q /\ q <= 1)%Q /\
    (Forall (fun x => x <> -32768) a -> in_unit_interval (Finite q)).
Proof.
  apply (proj2 (proj2 (audio_level_cases silent_frame))).
  - reflexivity.
  - discriminate.
Defined.

(** X7: splitting on whitespace undoes joining with single spaces: for
    words that are non-empty and free of whitespace,
    [" ".join(ws).split()] is [ws].  Hence splitting, joining and
    splitting again gives the same words, a text has no word exactly
    when it is all whitespace, and in every state the program reaches
    the fallback of the manual edit returns its own output unchanged
    when it is given that output as text. *)
Theorem split_undoes_join :
  (forall ws : list str,
     Forall (fun w => truthy w = true /\ existsb isspace w = false) ws ->
     split (join space ws) = ws) /\
  (forall s : str, split (join space (split s)) = split s) /\
  (forall s : str, split s = [] <-> forallb isspace s = true) /\
  (forall (sched : list action) (text : str),
     let p := pipe (run sched boot) in
     let english := snd (update_bengali_text text TranslationError p) in
     snd (update_bengali_text english TranslationError p) = english).
Proof.
  split; [exact split_join|]. split; [|split].
  - intros s. apply split_join. apply split_tokens.
  - intros s. unfold split. rewrite split_from_blank. tauto.
  - intros sched text p english. subst english p. simpl.
    change (bengali_medical_terms (set_bengali ?t (pipe (run sched boot))))
      with (bengali_medical_terms (pipe (run sched boot))).
    rewrite run_terms. change (bengali_medical_terms (pipe boot)) with (∅ : gmap str str).
    rewrite !fallback_words_map, !map_replace_token_empty.
    rewrite split_join by apply split_tokens. reflexivity.
Qed.

Lemma split_undoes_join_witness :
  split (join space [of_string "jor"; of_string "kashi"])
  = [of_string "jor"; of_string "kashi"].
Proof.
  apply (proj1 split_undoes_join). repeat constructor.
Defined.

(** ** Searching and cutting texts *)

Section Search.

Lemma startswith_app (p r : str) : startswith p (p ++ r) = true.
Proof.
  induction p as [|a p IH]; [reflexivity|].
  simpl. rewrite N.eqb_refl. exact IH.
Qed.

Lemma startswith_nil_r (p : str) : startswith p [] = true -> p = [].
Proof. destruct p; [reflexivity | discriminate]. Qed.

Lemma startswith_length (p s : str) :
  startswith p s = true -> (length p <= length s)%nat.
Proof.
  revert s. induction p as [|a p IH]; intros s H; simpl; [lia|].
  destruct s as [|b s]; [discriminate H|].
  simpl in H. apply andb_true_iff in H. destruct H as [_ H].
  specialize (IH s H). simpl. lia.
Qed.

(** A prefix of [a ++ t] is a prefix of [a], or is [a] and then a prefix
    of [t]. *)
Lemma startswith_cut (p a t : str) :
  startswith p (a ++ t) = true ->
  startswith p a = true \/
  exists p2, p = a ++ p2 /\ startswith p2 t = true.
Proof.
  revert a. induction p as [|x p IH]; intros a H; [left; reflexivity|].
  destruct a as [|y a].
  - right. exists (x :: p). split; [reflexivity | exact H].
  - simpl in H. apply andb_true_iff in H. destruct H as [Hxy H].
    apply N.eqb_eq in Hxy. subst y.
    destruct (IH a H) as [Hl | (p2 & -> & Hr)].
    + left. simpl. rewrite N.eqb_refl. exact Hl.
    + right. exists p2. split; [reflexivity | exact Hr].
Qed.

Lemma startswith_shorter (p s r : str) :
  startswith p (s ++ r) = true -> (length p <= length s)%nat ->
  startswith p s = true.
Proof.
  intros H Hl. destruct (startswith_cut p s r H) as [Hs | (p2 & -> & _)];
    [exact Hs|].
  rewrite length_app in Hl. assert (p2 = []) by (destruct p2; [reflexivity | simpl in Hl; lia]).
  subst p2. rewrite app_nil_r. rewrite <- (app_nil_r s) at 2.
  apply startswith_app.
Qed.

Lemma occurs_nil (sep : str) : sep <> [] -> occurs sep [] = false.
Proof. destruct sep; [congruence | reflexivity]. Qed.

(** A separator that does not overlap itself is not found across the
    end of a text that is followed by it, unless that text starts with
    it. *)
Lemma startswith_before_sep (sep a rest : str) :
  a <> [] ->
  overlaps sep = false ->
  startswith sep a = false ->
  startswith sep (a ++ sep ++ rest) = false.
Proof.
  intros Ha Hov Hs.
  destruct (startswith sep (a ++ sep ++ rest)) eqn:E; [|reflexivity].
  destruct (startswith_cut sep a (sep ++ rest) E) as [H | (p2 & Hp & H2)];
    [congruence|].
  exfalso.
  assert (Hp2 : p2 <> []).
  { intros ->. rewrite app_nil_r in Hp. subst sep.
    rewrite <- (app_nil_r a) in Hs at 2. rewrite startswith_app in Hs.
    discriminate Hs. }
  assert (Hlen : length sep = (length a + length p2)%nat)
    by (rewrite Hp at 1; apply length_app).
  assert (Hpre : startswith p2 sep = true).
  { apply (startswith_shorter p2 sep rest H2). lia. }
  assert (Hex : existsb (fun k => startswith (drop k sep) sep)
                  (seq 1 (length sep - 1)) = true).
  { apply existsb_exists. exists (length a). split.
    - apply in_seq. destruct a; [congruence|]. destruct p2; [congruence|].
      simpl in *. lia.
    - rewrite Hp at 1. rewrite drop_app_length. exact Hpre. }
  unfold overlaps in Hov. congruence.
Qed.

Lemma split_sep_skip (sep x cur rest : str) :
  split_sep_from sep cur (length x) (x ++ rest) = split_sep_from sep cur 0 rest.
Proof.
  induction x as [|c x IH]; [reflexivity|]. simpl. exact IH.
Qed.

(** The piece before the first separator. *)
Lemma split_sep_first (sep a cur rest : str) :
  sep <> [] ->
  overlaps sep = false ->
  occurs sep a = false ->
  split_sep_from sep cur 0 (a ++ sep ++ rest)
  = (rev cur ++ a) :: split_sep_from sep [] 0 rest.
Proof.
  intros Hne Hov. revert cur. induction a as [|c a IH]; intros cur Hocc.
  - rewrite app_nil_r. destruct sep as [|x sep']; [congruence|].
    change ([] ++ (x :: sep') ++ rest) with (x :: (sep' ++ rest)).
    assert (Hst : startswith (x :: sep') (x :: sep' ++ rest) = true)
      by apply (startswith_app (x :: sep') rest).
    cbn [split_sep_from]. rewrite Hst.
    change (length (x :: sep') - 1)%nat with (length sep' - 0)%nat.
    rewrite Nat.sub_0_r, split_sep_skip. reflexivity.
  - simpl in Hocc. apply orb_false_iff in Hocc. destruct Hocc as [Hs Hocc].
    assert (Hno : startswith sep ((c :: a) ++ sep ++ rest) = false).
    { apply startswith_before_sep; [discriminate | exact Hov |].
      destruct sep; [congruence | exact Hs]. }
    change ((c :: a) ++ sep ++ rest) with (c :: (a ++ sep ++ rest)) in *.
    cbn [split_sep_from]. rewrite Hno, IH by exact Hocc.
    simpl. rewrite <- app_assoc. reflexivity.
Qed.

(** A text without the separator is one piece. *)
Lemma split_sep_none (sep s cur : str) :
  sep <> [] ->
  occurs sep s = false ->
  split_sep_from sep cur 0 s = [rev cur ++ s].
Proof.
  intros Hne. revert cur. induction s as [|c s IH]; intros cur Hocc.
  - simpl. rewrite app_nil_r. reflexivity.
  - simpl in Hocc. apply orb_false_iff in Hocc. destruct Hocc as [Hs Hocc].
    cbn [split_sep_from].
    assert (Hs' : startswith sep (c :: s) = false)
      by (destruct sep; [congruence | exact Hs]).
    rewrite Hs', IH by exact Hocc. simpl. rewrite <- app_assoc. reflexivity.
Qed.

Lemma universal_newlines_id (s : str) :
  existsb (N.eqb 13) s = false -> universal_newlines s = s.
Proof.
  induction s as [|c s IH]; [reflexivity|].
  intros H. cbn [existsb] in H. apply orb_false_iff in H.
  destruct H as [Hc Hs]. cbn [universal_newlines].
  rewrite N.eqb_sym, Hc, IH by exact Hs. reflexivity.
Qed.

End Search.

Section Straddle.

Lemma startswith_app_r (q r t : str) :
  startswith q r = true -> startswith q (r ++ t) = true.
Proof.
  revert r. induction q as [|a q IH]; intros r H; [reflexivity|].
  destruct r as [|b r]; [discriminate H|].
  simpl in *. apply andb_true_iff in H. destruct H as [Hab H].
  rewrite Hab. simpl. apply IH. exact H.
Qed.

Lemma startswith_refl (p : str) : startswith p p = true.
Proof. rewrite <- (app_nil_r p) at 2. apply startswith_app. Qed.

Lemma endswith_cons (p s : str) (c : char) :
  endswith p s = true -> endswith p (c :: s) = true.
Proof. unfold endswith. simpl. apply startswith_app_r. Qed.

Lemma startswith_chars (p s : str) (c : char) :
  startswith p s = true -> In c p -> In c s.
Proof.
  revert s. induction p as [|a p IH]; intros s H Hin; [contradiction|].
  destruct s as [|b s]; [discriminate H|].
  simpl in H. apply andb_true_iff in H. destruct H as [Hab H].
  apply N.eqb_eq in Hab. subst b. destruct Hin as [->|Hin].
  - left. reflexivity.
  - right. apply IH; assumption.
Qed.

Lemma endswith_chars (p s : str) (c : char) :
  endswith p s = true -> In c p -> In c s.
Proof.
  unfold endswith. intros H Hin. apply in_rev.
  apply (startswith_chars (rev p) (rev s) c H). apply in_rev in Hin. exact Hin.
Qed.

(** A text that holds [sep] holds every character of [sep]. *)
Lemma occurs_chars (sep s : str) (c : char) :
  occurs sep s = true -> In c sep -> In c s.
Proof.
  induction s as [|b s IH]; intros H Hin.
  - simpl in H. rewrite orb_false_r in H. apply startswith_nil_r in H.
    subst sep. contradiction.
  - simpl in H. apply orb_true_iff in H. destruct H as [H|H].
    + apply (startswith_chars sep (b :: s) c H Hin).
    + right. apply IH; assumption.
Qed.

Lemma newline_free (s : str) :
  existsb (N.eqb 10) s = false -> ~ In 10%N s.
Proof.
  intros H Hin. assert (existsb (N.eqb 10) s = true).
  { apply existsb_exists. exists 10%N. split; [exact Hin | reflexivity]. }
  congruence.
Qed.

(** Where [sep] can be in [x ++ y]: in [x], in [y], or across the seam. *)
Lemma occurs_app (sep x y : str) :
  occurs sep (x ++ y) = true ->
  occurs sep x = true \/ occurs sep y = true \/
  exists k, In k (seq 1 (length sep - 1)) /\
            endswith (take k sep) x = true /\
            startswith (drop k sep) y = true.
Proof.
  induction x as [|c x IH]; intros H; [right; left; exact H|].
  change ((c :: x) ++ y) with (c :: (x ++ y)) in H.
  cbn [occurs] in H. apply orb_true_iff in H. destruct H as [H|H].
  - destruct (startswith_cut sep (c :: x) y H) as [Hl | (p2 & Hp & H2)].
    + left. cbn [occurs]. rewrite Hl. reflexivity.
    + destruct p2 as [|d p2].
      * left. rewrite app_nil_r in Hp. subst sep. cbn [occurs].
        rewrite startswith_refl. reflexivity.
      * right. right. exists (length (c :: x)). split; [|split].
        -- apply in_seq. rewrite Hp, length_app. simpl. lia.
        -- rewrite Hp, take_app_length. unfold endswith. apply startswith_refl.
        -- rewrite Hp, drop_app_length. exact H2.
  - destruct (IH H) as [Hl | [Hr | (k & Hk & He & Hs)]].
    + left. cbn [occurs]. rewrite Hl. apply orb_true_r.
    + right. left. exact Hr.
    + right. right. exists k. split; [exact Hk|]. split; [|exact Hs].
      apply endswith_cons. exact He.
Qed.

Lemma off_blank_line_sound (p r : str) :
  off_blank_line p = true -> startswith p (10%N :: 10%N :: r) = false.
Proof.
  destruct p as [|a [|b p]]; simpl; [discriminate| |].
  - intros H. apply negb_true_iff in H. rewrite H. reflexivity.
  - intros H. apply negb_true_iff in H.
    destruct (a =? 10)%N; [|reflexivity].
    destruct (b =? 10)%N; [discriminate H | reflexivity].
Qed.

(** A text without newline in front of a blank line: [sep] is found in
    what follows, or not at all. *)
Lemma occurs_after_plain (sep t r : str) :
  In 10%N sep ->
  never_across_blank_line sep = true ->
  existsb (N.eqb 10) t = false ->
  occurs sep (t ++ 10%N :: 10%N :: r) = true ->
  occurs sep (10%N :: 10%N :: r) = true.
Proof.
  intros Hnl Hchk Ht H.
  destruct (occurs_app sep t _ H) as [Hl | [Hr | (k & Hk & He & Hs)]].
  - exfalso. apply (newline_free t Ht). apply (occurs_chars sep t _ Hl Hnl).
  - exact Hr.
  - exfalso. unfold never_across_blank_line in Hchk.
    rewrite forallb_forall in Hchk. specialize (Hchk k Hk).
    apply orb_true_iff in Hchk. destruct Hchk as [Hc | Hc].
    + apply existsb_exists in Hc. destruct Hc as (c & Hin & Hc).
      apply N.eqb_eq in Hc. subst c.
      apply (newline_free t Ht). apply (endswith_chars _ _ _ He Hin).
    + rewrite (off_blank_line_sound _ r Hc) in Hs. discriminate Hs.
Qed.

(** A fixed text in front: [sep] is found in what follows, or not at all. *)
Lemma occurs_after_fixed (sep x y : str) :
  occurs sep x = false ->
  never_across_end sep x = true ->
  occurs sep (x ++ y) = true ->
  occurs sep y = true.
Proof.
  intros Hx Hchk H.
  destruct (occurs_app sep x y H) as [Hl | [Hr | (k & Hk & He & Hs)]].
  - congruence.
  - exact Hr.
  - exfalso. unfold never_across_end in Hchk.
    rewrite forallb_forall in Hchk. specialize (Hchk k Hk).
    rewrite He in Hchk. discriminate Hchk.
Qed.

End Straddle.

(** ** Saving and loading a session *)

Section RoundTrip.

(** The parser on a text laid out as [save_session] and [export_as_txt]
    lay it out, with [tail] after the rule of the English title, when
    each header is found only where it was written. *)
Lemma parse_sections (bengali tail : str) :
  occurs bengali_header (bengali ++ english_title ++ english_rule ++ tail)
    = false ->
  occurs english_marker bengali = false ->
  occurs english_header (bengali_header ++ bengali ++ nl ++ nl) = false ->
  occurs english_header tail = false ->
  parse_session
    (bengali_title ++ bengali_rule ++ bengali ++ english_title
       ++ english_rule ++ tail)
  = match item (split_sep stamp_marker tail) 0 with
    | None => None
    | Some english_part => Some (strip bengali, strip english_part)
    end.
Proof.
  intros H2 H3 H4 H5.
  set (rest := english_title ++ english_rule ++ tail) in *.
  set (text := bengali_title ++ bengali_rule ++ bengali ++ rest).
  assert (E1 : text = [] ++ bengali_header ++ (bengali ++ rest)) by reflexivity.
  assert (E2 : bengali ++ rest
               = bengali ++ english_marker ++ (nl ++ english_rule ++ tail))
    by reflexivity.
  assert (E3 : text
               = (bengali_header ++ bengali ++ nl ++ nl) ++ english_header
                   ++ tail).
  { subst text rest. change (bengali_title ++ bengali_rule ++ ?x)
      with (bengali_header ++ x).
    rewrite <- !app_assoc. reflexivity. }
  unfold parse_session, split_sep.
  rewrite E1 at 1.
  rewrite (split_sep_first bengali_header [] [] (bengali ++ rest))
    by (try discriminate; reflexivity).
  rewrite (split_sep_none bengali_header (bengali ++ rest) [])
    by (try discriminate; exact H2).
  cbn [item nth_error rev app].
  rewrite E2.
  rewrite (split_sep_first english_marker bengali [])
    by (try discriminate; first [reflexivity | exact H3]).
  cbn [item nth_error rev app].
  rewrite E3.
  rewrite (split_sep_first english_header (bengali_header ++ bengali ++ nl ++ nl) [])
    by (try discriminate; first [reflexivity | exact H4]).
  rewrite (split_sep_none english_header tail [])
    by (try discriminate; exact H5).
  reflexivity.
Qed.

(** Texts of one line, with a label that begins with a blank line between
    the English text and the time, keep every marker where it was
    written. *)
Lemma markers_of_plain_texts (bengali english label stamp : str) :
  existsb (N.eqb 10) bengali = false ->
  existsb (N.eqb 10) english = false ->
  existsb (N.eqb 10) stamp = false ->
  occurs bengali_header (10%N :: 10%N :: label) = false ->
  never_across_end bengali_header (10%N :: 10%N :: label) = true ->
  occurs english_header (10%N :: 10%N :: label) = false ->
  never_across_end english_header (10%N :: 10%N :: label) = true ->
  let tail := english ++ (10%N :: 10%N :: label) ++ stamp in
  occurs bengali_header (bengali ++ english_title ++ english_rule ++ tail)
    = false /\
  occurs english_marker bengali = false /\
  occurs english_header (bengali_header ++ bengali ++ nl ++ nl) = false /\
  occurs english_header tail = false /\
  occurs stamp_marker english = false.
Proof.
  intros Hb He Hs Lb1 Lb2 Le1 Le2 tail. subst tail.
  assert (Hnot : forall (sep t : str), In 10%N sep ->
            existsb (N.eqb 10) t = false -> occurs sep t = false).
  { intros sep t Hin Ht. destruct (occurs sep t) eqn:E; [|reflexivity].
    exfalso. apply (newline_free t Ht). apply (occurs_chars sep t _ E Hin). }
  assert (Nbh : In 10%N bengali_header) by (vm_compute; tauto).
  assert (Neh : In 10%N english_header) by (vm_compute; tauto).
  assert (Nem : In 10%N english_marker) by (vm_compute; tauto).
  assert (Nsm : In 10%N stamp_marker) by (vm_compute; tauto).
  split; [|split; [|split; [|split]]].
  - match goal with |- ?x = false => destruct x eqn:E end; [|reflexivity].
    exfalso.
    apply (occurs_after_plain bengali_header bengali
             (of_string "ENGLISH TRANSLATION" ++ nl ++ english_rule
                ++ english ++ (10%N :: 10%N :: label) ++ stamp)
             Nbh eq_refl Hb) in E.
    apply (occurs_after_fixed bengali_header (english_title ++ english_rule)
             (english ++ (10%N :: 10%N :: label) ++ stamp) eq_refl eq_refl) in E.
    apply (occurs_after_plain bengali_header english (label ++ stamp)
             Nbh eq_refl He) in E.
    apply (occurs_after_fixed bengali_header (10%N :: 10%N :: label) stamp
             Lb1 Lb2) in E.
    rewrite (Hnot bengali_header stamp Nbh Hs) in E. discriminate E.
  - apply Hnot; assumption.
  - match goal with |- ?x = false => destruct x eqn:E end; [|reflexivity].
    exfalso.
    apply (occurs_after_fixed english_header bengali_header
             (bengali ++ nl ++ nl) eq_refl eq_refl) in E.
    apply (occurs_after_plain english_header bengali [] Neh eq_refl Hb) in E.
    vm_compute in E. discriminate E.
  - match goal with |- ?x = false => destruct x eqn:E end; [|reflexivity].
    exfalso.
    apply (occurs_after_plain english_header english (label ++ stamp)
             Neh eq_refl He) in E.
    apply (occurs_after_fixed english_header (10%N :: 10%N :: label) stamp
             Le1 Le2) in E.
    rewrite (Hnot english_header stamp Neh Hs) in E. discriminate E.
  - apply Hnot; assumption.
Qed.

End RoundTrip.

(** X8: saving and loading a session.  With both texts empty nothing is
    saved, and with no file name chosen nothing is saved.  Otherwise the
    file name is the chosen one when that ends with ".transcript", and
    the chosen one followed by ".transcript" when it does not.  When the
    file cannot be opened or written, or a text cannot be encoded, the
    save fails with the error box.  When the disk takes the file, for
    texts and a timestamp that UTF-8 can encode and that hold no newline
    and no carriage return, the file is written under that name and
    loading what was written gives back the Bengali and the English
    text, each without the whitespace at its two ends. *)
Theorem session_round_trip (writable : bool)
    (bengali english chosen stamp : str) :
  (bengali = [] -> english = [] ->
   save_session writable bengali english chosen stamp = NothingToSave) /\
  (truthy bengali || truthy english = true -> chosen = [] ->
   save_session writable bengali english chosen stamp = SaveCancelled) /\
  (truthy bengali || truthy english = true ->
   truthy chosen = true ->
   writable = false \/
   forallb encodable (session_text bengali english stamp) = false ->
   save_session writable bengali english chosen stamp = SaveError) /\
  (truthy bengali || truthy english = true ->
   truthy chosen = true ->
   writable = true ->
   forallb encodable (bengali ++ english ++ stamp) = true ->
   existsb (N.eqb 10) (bengali ++ english ++ stamp) = false ->
   existsb (N.eqb 13) (bengali ++ english ++ stamp) = false ->
   exists filename,
     save_session writable bengali english chosen stamp
     = Saved filename (session_text bengali english stamp) /\
     endswith extension filename = true /\
     (endswith extension chosen = true -> filename = chosen) /\
     (endswith extension chosen = false -> filename = chosen ++ extension) /\
     load_session (session_text bengali english stamp)
     = Some (strip bengali, strip english)).
Proof.
  split; [|split; [|split]].
  - intros -> ->. reflexivity.
  - intros Hne ->. unfold save_session.
    destruct (truthy bengali), (truthy english); try discriminate Hne;
      reflexivity.
  - intros Hne Hch Hbad. unfold save_session. rewrite Hch.
    assert (Hno : writable
                  && forallb encodable (session_text bengali english stamp)
                  = false).
    { destruct Hbad as [-> | ->]; [reflexivity | apply andb_false_r]. }
    rewrite Hno.
    destruct (truthy bengali), (truthy english); try discriminate Hne;
      reflexivity.
  - intros Hne Hch -> Henc Hnl Hcr.
    rewrite !forallb_app in Henc. apply andb_true_iff in Henc.
    destruct Henc as [Eb Henc]. apply andb_true_iff in Henc.
    destruct Henc as [Ee Es].
    rewrite !existsb_app in Hnl, Hcr.
    apply orb_false_iff in Hnl. destruct Hnl as [Nb Hnl].
    apply orb_false_iff in Hnl. destruct Hnl as [Ne Ns].
    apply orb_false_iff in Hcr. destruct Hcr as [Cb Hcr].
    apply orb_false_iff in Hcr. destruct Hcr as [Ce Cs].
    assert (Hall : forallb encodable (session_text bengali english stamp) = true).
    { unfold session_text. rewrite !forallb_app, Eb, Ee, Es. reflexivity. }
    assert (Hcrs : existsb (N.eqb 13) (session_text bengali english stamp) = false).
    { unfold session_text. rewrite !existsb_app, Cb, Ce, Cs. reflexivity. }
    exists (if endswith extension chosen then chosen else chosen ++ extension).
    split; [|split; [|split; [|split]]].
    + unfold save_session. rewrite Hch, Hall.
      destruct (truthy bengali), (truthy english); try discriminate Hne;
        reflexivity.
    + destruct (endswith extension chosen) eqn:E; [exact E|].
      unfold endswith. rewrite rev_app_distr. apply startswith_app.
    + intros E. rewrite E. reflexivity.
    + intros E. rewrite E. reflexivity.
    + unfold load_session. rewrite (universal_newlines_id _ Hcrs).
      destruct (markers_of_plain_texts bengali english
                  (of_string "Timestamp: ") stamp Nb Ne Ns
                  eq_refl eq_refl eq_refl eq_refl)
        as (H2 & H3 & H4 & H5 & H6).
      unfold session_text.
      rewrite (parse_sections bengali (english ++ stamp_label ++ stamp))
        by assumption.
      change (english ++ stamp_label ++ stamp)
        with (english ++ stamp_marker ++ (of_string " " ++ stamp)).
      unfold split_sep.
      rewrite (split_sep_first stamp_marker english [])
        by (try discriminate; first [reflexivity | exact H6]).
      reflexivity.
Qed.

Lemma session_round_trip_witness :
  (exists filename,
     save_session true (of_string " আমার ব্যথা আছে ") (of_string "I have pain")
       (of_string "visit") (of_string "2024-01-01 10:00:00")
     = Saved filename
         (session_text (of_string " আমার ব্যথা আছে ") (of_string "I have pain")
            (of_string "2024-01-01 10:00:00")) /\
     filename = of_string "visit.transcript" /\
     load_session
       (session_text (of_string " আমার ব্যথা আছে ") (of_string "I have pain")
          (of_string "2024-01-01 10:00:00"))
     = Some (of_string "আমার ব্যথা আছে", of_string "I have pain")) /\
  save_session false (of_string "jor") [] (of_string "visit.transcript")
    (of_string "2024-01-01 10:00:00")
  = SaveError.
Proof.
  split.
  - destruct (proj2 (proj2 (proj2
               (session_round_trip true (of_string " আমার ব্যথা আছে ")
                  (of_string "I have pain") (of_string "visit")
                  (of_string "2024-01-01 10:00:00"))))
               eq_refl eq_refl eq_refl eq_refl eq_refl eq_refl)
      as (filename & Hsave & _ & _ & Hname & Hload).
    exists filename. split; [exact Hsave|].
    split; [exact (Hname eq_refl) | exact Hload].
  - apply (proj1 (proj2 (proj2
             (session_round_trip false (of_string "jor") []
                (of_string "visit.transcript")
                (of_string "2024-01-01 10:00:00")))));
      [reflexivity | reflexivity | left; reflexivity].
Defined.

(** ** The level bar *)

Section Bar.

Lemma happenings_snoc (recording : bool) (hs : list happening)
    (h : happening) (level : Z) :
  happenings recording (hs ++ [h]) level
  = happen recording h (happenings recording hs level).
Proof. unfold happenings. rewrite fold_left_app. reflexivity. Qed.

Lemma ticks_snoc (hs : list happening) (h : happening) :
  ticks (hs ++ [h]) = (ticks hs + if is_tick h then 1 else 0)%nat.
Proof.
  unfold ticks. rewrite List.filter_app, length_app. simpl.
  destruct (is_tick h); reflexivity.
Qed.

(** While the widget is not recording only its own timer moves the
    level. *)
Lemma idle_happenings (hs : list happening) (level : Z) :
  0 <= level ->
  happenings false hs level = Z.max 0 (level - 5 * Z.of_nat (ticks hs)).
Proof.
  intros Hl. induction hs as [|h hs IH] using rev_ind.
  - unfold happenings, ticks. simpl. lia.
  - rewrite happenings_snoc, ticks_snoc, IH.
    destruct h as [|draw|draw]; cbn [happen paint_level is_tick].
    + unfold decay.
      destruct (0 <? Z.max 0 (level - 5 * Z.of_nat (ticks hs))) eqn:E;
        [apply Z.ltb_lt in E | apply Z.ltb_ge in E]; lia.
    + rewrite Nat.add_0_r. reflexivity.
    + rewrite Nat.add_0_r. reflexivity.
Qed.

End Bar.

(** X9: the level of the bar.  [set_level] puts any value in the range
    from 0 to 100; [decay] keeps a level in that range there and never
    raises it; no tick, repaint or call of [update_audio_level] takes a
    level above 100.  While the widget is not recording, a repaint and
    [update_audio_level] leave the level alone, so after any run of
    ticks and repaints with n ticks a level that was not negative is
    max(0, level - 5n), and every level set by [set_level] is 0 once 20
    ticks have passed, that is after two seconds.  While it is
    recording, [paintEvent] moves the level by its draw and bounds it
    only from above; a level below zero, which that can produce, is left
    as it is by whatever happens while the widget is not recording. *)
Theorem level_bar_range :
  (forall level : Z, 0 <= set_level level <= 100) /\
  (forall level : Z, 0 <= level <= 100 ->
     0 <= decay level <= 100 /\ decay level <= level) /\
  (forall (recording : bool) (h : happening) (level : Z),
     level <= 100 -> happen recording h level <= 100) /\
  (forall (hs : list happening) (level : Z), 0 <= level ->
     happenings false hs level
     = Z.max 0 (level - 5 * Z.of_nat (ticks hs))) /\
  (forall (hs : list happening) (level : Z), (20 <= ticks hs)%nat ->
     happenings false hs (set_level level) = 0) /\
  (forall (draw level : Z),
     paint_level true draw level = Z.min 100 (level + draw) /\
     paint_level true draw level <= 100 /\
     (level + draw < 0 -> paint_level true draw level = level + draw)) /\
  (forall (hs : list happening) (level : Z), level <= 0 ->
     happenings false hs level = level).
Proof.
  split; [|split; [|split; [|split; [|split; [|split]]]]].
  - intros level. unfold set_level. lia.
  - intros level Hl. unfold decay. destruct (0 <? level); lia.
  - intros recording h level Hl.
    destruct h as [|draw|draw]; cbn [happen].
    + unfold decay. destruct (0 <? level); lia.
    + unfold paint_level. destruct recording; lia.
    + unfold set_level. destruct recording; lia.
  - exact idle_happenings.
  - intros hs level Hn. rewrite idle_happenings by (unfold set_level; lia).
    unfold set_level. lia.
  - intros draw level. unfold paint_level.
    split; [reflexivity|]. lia.
  - intros hs level Hl. induction hs as [|h hs IH] using rev_ind;
      [reflexivity|].
    rewrite happenings_snoc, IH.
    destruct h as [|draw|draw]; cbn [happen paint_level]; try reflexivity.
    unfold decay.
    destruct (0 <? level) eqn:E; [apply Z.ltb_lt in E; lia | reflexivity].
Qed.

Lemma level_bar_range_witness :
  happenings false [Tick; Paint 15; Tick; Paint (-10); Meter 80; Tick] 72
  = 57 /\
  (0 <= decay 72 <= 100 /\ decay 72 <= 72) /\
  happenings true [Tick; Paint 15] 72 = 82 /\
  happen true (Paint 15) 95 <= 100.
Proof.
  split; [|split; [|split]].
  - apply (proj1 (proj2 (proj2 (proj2 level_bar_range)))
             [Tick; Paint 15; Tick; Paint (-10); Meter 80; Tick] 72).
    lia.
  - apply (proj1 (proj2 level_bar_range)). lia.
  - reflexivity.
  - apply (proj1 (proj2 (proj2 level_bar_range))). lia.
Defined.

Section Strip.

Lemma lstrip_id (c : char) (r : str) :
  isspace c = false -> lstrip (c :: r) = c :: r.
Proof. intros H. simpl. rewrite H. reflexivity. Qed.

Lemma rstrip_id (x : str) (c : char) :
  isspace c = false -> rstrip (x ++ [c]) = x ++ [c].
Proof.
  intros H. unfold rstrip. rewrite rev_app_distr. simpl. rewrite H.
  change (c :: rev x) with (rev [c] ++ rev x).
  rewrite <- rev_app_distr, rev_involutive. reflexivity.
Qed.

End Strip.

(** X10: a text export is not a session file.  Loading what
    [export_as_txt] wrote for texts and a time of one line gives back the
    Bengali text without the whitespace at its ends, and as English text
    the English text followed by the blank line, "Exported on: " and the
    time of the export, stripped at its two ends as a whole: the parser
    looks for "Timestamp:", which an export does not hold.  When the
    English text does not begin with whitespace and the time does not
    end with it, nothing is stripped. *)
Theorem exported_text_loads_with_footer (bengali english stamp : str) :
  existsb (N.eqb 10) (bengali ++ english ++ stamp) = false ->
  existsb (N.eqb 13) (bengali ++ english ++ stamp) = false ->
  load_session (export_text bengali english stamp)
  = Some (strip bengali, strip (english ++ export_label ++ stamp)) /\
  (forall (c d : char) (english' stamp' : str),
     english = c :: english' -> stamp = stamp' ++ [d] ->
     isspace c = false -> isspace d = false ->
     load_session (export_text bengali english stamp)
     = Some (strip bengali, english ++ export_label ++ stamp)).
Proof.
  intros Hnl Hcr.
  rewrite !existsb_app in Hnl, Hcr.
  apply orb_false_iff in Hnl. destruct Hnl as [Nb Hnl].
  apply orb_false_iff in Hnl. destruct Hnl as [Ne Ns].
  apply orb_false_iff in Hcr. destruct Hcr as [Cb Hcr].
  apply orb_false_iff in Hcr. destruct Hcr as [Ce Cs].
  assert (Hcrs : existsb (N.eqb 13) (export_text bengali english stamp) = false).
  { unfold export_text. rewrite !existsb_app, Cb, Ce, Cs. reflexivity. }
  assert (Hload : load_session (export_text bengali english stamp)
                  = Some (strip bengali, strip (english ++ export_label ++ stamp))).
  { unfold load_session. rewrite (universal_newlines_id _ Hcrs).
    destruct (markers_of_plain_texts bengali english
                (of_string "Exported on: ") stamp Nb Ne Ns
                eq_refl eq_refl eq_refl eq_refl)
      as (H2 & H3 & H4 & H5 & _).
    unfold export_text.
    rewrite (parse_sections bengali (english ++ export_label ++ stamp))
      by assumption.
    assert (Hnone : occurs stamp_marker (english ++ export_label ++ stamp) = false).
    { match goal with |- ?x = false => destruct x eqn:E end; [|reflexivity].
      exfalso.
      assert (Nsm : In 10%N stamp_marker) by (vm_compute; tauto).
      apply (occurs_after_plain stamp_marker english
               (of_string "Exported on: " ++ stamp) Nsm eq_refl Ne) in E.
      apply (occurs_after_fixed stamp_marker export_label stamp
               eq_refl eq_refl) in E.
      apply (newline_free stamp Ns). apply (occurs_chars _ _ _ E Nsm). }
    unfold split_sep.
    rewrite (split_sep_none stamp_marker _ [])
      by (try discriminate; exact Hnone).
    reflexivity. }
  split; [exact Hload|].
  intros c d english' stamp' -> -> Hc Hd. rewrite Hload. do 2 f_equal.
  unfold strip.
  change ((c :: english') ++ export_label ++ stamp' ++ [d])
    with (c :: (english' ++ export_label ++ stamp' ++ [d])).
  rewrite lstrip_id by exact Hc.
  change (c :: english' ++ export_label ++ stamp' ++ [d])
    with ((c :: english') ++ export_label ++ stamp' ++ [d]).
  rewrite !app_assoc. apply rstrip_id. exact Hd.
Qed.

Lemma exported_text_loads_with_footer_witness :
  load_session
    (export_text (of_string "jor") (of_string "fever")
       (of_string "2024-01-01 10:00:00"))
  = Some (strip (of_string "jor"),
          strip (of_string "fever" ++ export_label
                   ++ of_string "2024-01-01 10:00:00")).
Proof.
  apply (proj1 (exported_text_loads_with_footer (of_string "jor")
                  (of_string "fever") (of_string "2024-01-01 10:00:00")
                  eq_refl eq_refl)).
Defined.

(** ** Typing while idle *)

Section Typing.



End Typing.



(** ** Pressing the buttons *)

Section Buttons.

Lemma worker_steps_keep_flags (sched : list action) (s : System) :
  forallb is_run sched = true ->
  is_running (pipe (run sched s)) = is_running (pipe s) /\
  is_paused (pipe (run sched s)) = is_paused (pipe s).
Proof.
  induction sched as [|a sched IH] using rev_ind; intros Hall.
  - split; reflexivity.
  - rewrite forallb_app in Hall. apply andb_true_iff in Hall.
    destruct Hall as [Hs Ha]. simpl in Ha. rewrite andb_true_r in Ha.
    destruct (IH Hs) as [I1 I2]. rewrite run_snoc.
    destruct (step_run_shape a (run sched s) Ha) as (H1 & H2 & _).
    split; congruence.
Qed.

Lemma filter_is_run (sched : list action) :
  forallb is_run (List.filter is_run sched) = true.
Proof.
  induction sched as [|a sched IH]; [reflexivity|].
  simpl. destruct (is_run a) eqn:E; [|exact IH].
  simpl. rewrite E. exact IH.
Qed.

Lemma press_in_step (k : click) (c : Panel) :
  in_step c -> exists c', press k c = Some c' /\ in_step c'.
Proof.
  intros Hin. pose proof Hin as (Hact & Hcap & Hidle & Hst & Hpe & Hse & Hm & Ht & Hw).
  destruct k as [| |sched|tid e]; [simpl | simpl | simpl | cbn [press]].
  - (* start *)
    destruct (worker_active (win c)) eqn:Ha.
    + exists c. split; [reflexivity | exact Hin].
    + eexists. split; [reflexivity|].
      unfold click_start. rewrite Ha. unfold begin_run, start_recording.
      rewrite Ha. simpl.
      rewrite <- Hact in Hidle. simpl in Hidle.
      unfold in_step, shows_resume in *. cbn.
      rewrite Hcap, Hidle. repeat split.
  - (* pause or resume *)
    unfold toggle_pause. destruct (worker_active (win c)) eqn:Ha; simpl.
    + eexists. split; [reflexivity|].
      clear Hin.
      destruct (pause_button c) eqn:Hb;
        unfold in_step, shows_resume, worker_active in *; cbn;
        rewrite <- Hact in Hst, Hpe, Hse |- *;
        repeat split; try assumption; try reflexivity.
    + exists c. split; [reflexivity | exact Hin].
  - (* stop *)
    unfold stop_recording. destruct (worker_active (win c)) eqn:Ha; simpl.
    + unfold worker_active in Ha. destruct (worker (win c)) as [w|] eqn:Hk;
        [|discriminate Ha].
      rewrite Hw, Ha.
      destruct (worker_steps_keep_flags (List.filter is_run sched)
                  (on_pipe stop_signal (process (win c)))
                  (filter_is_run sched)) as [F1 F2].
      eexists. split; [reflexivity|].
      unfold in_step, shows_resume, worker_active. simpl.
      rewrite F1, F2. simpl. repeat split.
    + exists c. split; [reflexivity | exact Hin].
  - (* a thread of the pipeline *)
    eexists. split; [reflexivity|].
    destruct (step_run_shape (Run tid e) (process (win c)) eq_refl)
      as (H1 & H2 & _).
    unfold in_step, shows_resume, worker_active in *.
    cbn [win set_process process worker start_enabled pause_enabled
         stop_enabled meter_recording audio_timer pause_button].
    rewrite H1, H2. exact Hin.
Qed.

End Buttons.

(** X12: the buttons and the pipeline stay in step.  Whatever buttons are
    pressed, in whatever order, and whatever the threads of the pipeline
    do in between, as long as the worker thread begins [run] before the
    next press: no press blocks, the worker is active exactly when
    [is_running] is set, the pause button reads "Resume" exactly when
    [is_paused] is set, an idle pipeline is never paused, the start
    button is enabled exactly when the pipeline is idle, the pause and
    stop buttons exactly when it runs, and the level bar is live exactly
    when it runs unpaused.  So [start] is only called on an idle
    pipeline, and [pause] and [resume] only on a running one. *)
Theorem buttons_in_step (ks : list click) :
  exists c, presses ks panel = Some c /\ in_step c.
Proof.
  assert (Hgen : forall c0, in_step c0 ->
            exists c, presses ks c0 = Some c /\ in_step c).
  { induction ks as [|k ks IH]; intros c0 H0.
    - exists c0. split; [reflexivity | exact H0].
    - destruct (press_in_step k c0 H0) as (c1 & Hp & H1).
      destruct (IH c1 H1) as (c & Hc & Hin).
      exists c. split; [|exact Hin]. simpl. rewrite Hp. exact Hc. }
  apply Hgen. repeat split.
Qed.

(** X13: the two races at the start.  Between [start_recording] and the
    moment the worker thread begins [run], the pause button already
    works: pressed then, it sets [is_paused] and reads "Resume", and
    [run] then calls [start], which clears [is_paused]: recording goes on
    while the button reads "Resume".  The stop button pressed in that
    moment never returns. *)
Theorem presses_before_run (c : Panel) (sched : list action) :
  worker_active (win c) = false ->
  pause_button c = PauseCaption ->
  (let c' := begin_run (toggle_pause (click_start c)) in
   pause_button c' = ResumeCaption /\
   is_running (pipe (process (win c'))) = true /\
   is_paused (pipe (process (win c'))) = false /\
   worker_active (win c') = true) /\
  stop_recording sched (click_start c) = None.
Proof.
  intros Ha Hb. unfold click_start. rewrite Ha.
  unfold toggle_pause, stop_recording, begin_run, start_recording.
  rewrite Ha. simpl. rewrite Hb. simpl. repeat split.
Qed.

Lemma presses_before_run_witness :
  stop_recording [] (click_start panel) = None.
Proof.
  apply (proj2 (presses_before_run panel [] eq_refl eq_refl)).
Defined.
